(** * Agola: run scheduling, variable/secret resolution, configstore writes

    A shallow embedding of the parts of the agola sources that the
    specification talks about:
    - the run scheduler passes [advanceRunTasks] and [getTasksToRun]
      (package [runservice/scheduler]);
    - [FilterOverridenVariables] and [GetVarValueMatchingSecret]
      (package [services/common]);
    - [CreateSecret] / [CreateVariable] of the configstore action handler
      over a small model of the read database and the WAL datamanager;
    - the [httpError] helpers of the configstore and gateway APIs;
    - the gitlab webhook parsers;
    - the [limit] query parameter handling of the list endpoints. *)

From Stdlib Require Import String Ascii ZArith Lia.
From stdpp Require Import base gmap strings list.

Open Scope string_scope.

(* ===================================================================== *)
(** ** Run scheduler                                                      *)
(* ===================================================================== *)

Module Scheduler.

(** [types.RunTaskStatus] *)
Inductive RunTaskStatus :=
| RunTaskStatusNotStarted
| RunTaskStatusSkipped
| RunTaskStatusWaitingApproval
| RunTaskStatusRunning
| RunTaskStatusSuccess
| RunTaskStatusFailed
| RunTaskStatusStopped.

(** [types.RunConfigTaskDependCondition] *)
Inductive DependCondition :=
| DependConditionOnSuccess
| DependConditionOnFailure
| DependConditionOnSkipped.

Record RunConfigTaskDepend := {
  dep_TaskID : string;
  dep_Conditions : list DependCondition
}.

(** The fields of [types.RunConfigTask] the scheduler looks at. *)
Record RunConfigTask := {
  rct_ID : string;
  rct_Depends : list RunConfigTaskDepend;
  rct_Skip : bool;
  rct_NeedsApproval : bool;
  rct_IgnoreFailure : bool
}.

(** The fields of [types.RunTask] the scheduler looks at. *)
Record RunTask := {
  rt_ID : string;
  rt_Status : RunTaskStatus;
  rt_Approved : bool
}.

Record RunConfig := { Tasks : gmap string RunConfigTask }.
Record Run := { RunTasks : gmap string RunTask }.

Definition with_status (rt : RunTask) (s : RunTaskStatus) : RunTask :=
  {| rt_ID := rt_ID rt; rt_Status := s; rt_Approved := rt_Approved rt |}.

Definition isTerminal (s : RunTaskStatus) : bool :=
  match s with
  | RunTaskStatusSuccess | RunTaskStatusFailed
  | RunTaskStatusSkipped | RunTaskStatusStopped => true
  | _ => false
  end.

Definition isNotStarted (s : RunTaskStatus) : bool :=
  match s with RunTaskStatusNotStarted => true | _ => false end.

(** Modelled from the spec: the scheduler functions of package
    [runservice/scheduler] are not in the sources (only their tests are).
    A condition is matched by the terminal status it names. *)
Definition matchesCondition (s : RunTaskStatus) (c : DependCondition) : bool :=
  match c, s with
  | DependConditionOnSuccess, RunTaskStatusSuccess => true
  | DependConditionOnFailure, RunTaskStatusFailed => true
  | DependConditionOnSkipped, RunTaskStatusSkipped => true
  | _, _ => false
  end.

(** Modelled from the spec: unspecified conditions default to [{on_success}]. *)
Definition depConditions (d : RunConfigTaskDepend) : list DependCondition :=
  match dep_Conditions d with
  | [] => [DependConditionOnSuccess]
  | cs => cs
  end.

Definition depStatus (rts : gmap string RunTask) (d : RunConfigTaskDepend)
  : option RunTaskStatus :=
  rt_Status <$> rts !! dep_TaskID d.

Definition depTerminal (rts : gmap string RunTask) (d : RunConfigTaskDepend) : bool :=
  match depStatus rts d with Some s => isTerminal s | None => false end.

Definition depMatches (rts : gmap string RunTask) (d : RunConfigTaskDepend) : bool :=
  match depStatus rts d with
  | Some s => existsb (matchesCondition s) (depConditions d)
  | None => false
  end.

(** Modelled from the spec (section 4.3 (a)): one task of the
    [advanceRunTasks] pass.  A terminal task is left alone.  When every
    dependency is terminal and no dependency matches its conditions the
    task becomes [skipped] (the spec sets [skipped] both when all
    dependencies are skipped and otherwise).  A task without dependencies
    is left alone: the repository's test "test top level task not started"
    keeps root tasks [not_started]. *)
Definition advanceTask (rc : RunConfig) (rts : gmap string RunTask) (id : string)
  : gmap string RunTask :=
  match rts !! id with
  | None => rts
  | Some rt =>
      if isTerminal (rt_Status rt) then rts else
      match Tasks rc !! id with
      | None => rts
      | Some rct =>
          let deps := rct_Depends rct in
          if negb (bool_decide (deps = []))
             && forallb (depTerminal rts) deps
             && forallb (fun d => negb (depMatches rts d)) deps
          then <[id := with_status rt RunTaskStatusSkipped]> rts
          else rts
      end
  end.

(** Modelled from the spec: the pass visits the tasks in a topological
    order [order] of the run config DAG. *)
Definition advanceRunTasks (rc : RunConfig) (order : list string) (r : Run) : Run :=
  {| RunTasks := fold_left (advanceTask rc) order (RunTasks r) |}.

(** Modelled from the spec (section 4.3 (b)): a task is eligible when it
    is [not_started], not skipped by its run config task and every
    dependency is terminal and matches its conditions. *)
Definition eligible (rc : RunConfig) (rts : gmap string RunTask) (id : string)
    (rt : RunTask) : bool :=
  isNotStarted (rt_Status rt) &&
  match Tasks rc !! id with
  | None => false
  | Some rct =>
      negb (rct_Skip rct) &&
      forallb (fun d => depTerminal rts d && depMatches rts d) (rct_Depends rct)
  end.

Definition needsApproval (rc : RunConfig) (id : string) : bool :=
  match Tasks rc !! id with Some rct => rct_NeedsApproval rct | None => false end.

Definition toRun (rc : RunConfig) (rts : gmap string RunTask) (id : string)
    (rt : RunTask) : bool :=
  eligible rc rts id rt && (negb (needsApproval rc id) || rt_Approved rt).

(** Modelled from the spec: [getTasksToRun] returns the eligible tasks that
    do not wait for an approval; an eligible task that needs an approval it
    has not got is moved to [waiting_approval] instead. *)
Definition getTasksToRun (r : Run) (rc : RunConfig) : list RunTask * Run :=
  let rts := RunTasks r in
  (map snd (List.filter (fun '(id, rt) => toRun rc rts id rt) (map_to_list rts)),
   {| RunTasks := map_imap (fun id rt =>
        Some (if eligible rc rts id rt && needsApproval rc id && negb (rt_Approved rt)
              then with_status rt RunTaskStatusWaitingApproval else rt)) rts |}).

End Scheduler.

(** The run config and run of the scheduler tests ([TestAdvanceRunTasks],
    [TestGetTasksToRun]). *)
Module SchedulerFixtures.
Import Scheduler.

Definition mkTask (id : string) (deps : list string) (skip needsApproval : bool)
  : RunConfigTask :=
  {| rct_ID := id;
     rct_Depends := map (fun t => {| dep_TaskID := t; dep_Conditions := [] |}) deps;
     rct_Skip := skip; rct_NeedsApproval := needsApproval; rct_IgnoreFailure := false |}.

Definition mkRunTask (id : string) (s : RunTaskStatus) (approved : bool) : RunTask :=
  {| rt_ID := id; rt_Status := s; rt_Approved := approved |}.

Definition testRC (skip01 skip03 skip04 approval01 : bool) : RunConfig :=
  {| Tasks := list_to_map [
       ("task01", mkTask "task01" [] skip01 approval01);
       ("task02", mkTask "task02" ["task01"] false false);
       ("task03", mkTask "task03" [] skip03 false);
       ("task04", mkTask "task04" [] skip04 false);
       ("task05", mkTask "task05" ["task03"; "task04"] false false)] |}.

Definition testRun (s01 s02 s03 s04 : RunTaskStatus) (approved01 : bool) : Run :=
  {| RunTasks := list_to_map [
       ("task01", mkRunTask "task01" s01 approved01);
       ("task02", mkRunTask "task02" s02 false);
       ("task03", mkRunTask "task03" s03 false);
       ("task04", mkRunTask "task04" s04 false);
       ("task05", mkRunTask "task05" RunTaskStatusNotStarted false)] |}.

Definition testOrder : list string := ["task01"; "task02"; "task03"; "task04"; "task05"].

Definition ids (l : list RunTask) : list string := map rt_ID l.

(** task02 runs when task01 is skipped ([on_skipped] condition). *)
Definition onSkippedRC : RunConfig :=
  {| Tasks := list_to_map [
       ("task01", mkTask "task01" [] true false);
       ("task02", {| rct_ID := "task02";
                     rct_Depends := [{| dep_TaskID := "task01";
                                        dep_Conditions := [DependConditionOnSkipped] |}];
                     rct_Skip := false; rct_NeedsApproval := false;
                     rct_IgnoreFailure := false |})] |}.

Definition onSkippedRun : Run :=
  {| RunTasks := list_to_map [
       ("task01", mkRunTask "task01" RunTaskStatusSkipped false);
       ("task02", mkRunTask "task02" RunTaskStatusNotStarted false)] |}.

End SchedulerFixtures.

(* ===================================================================== *)
(** ** Configstore entity types                                          *)
(* ===================================================================== *)

Module Types.

(** [types.ConfigType] *)
Inductive ConfigType :=
| ConfigTypeNone            (* the empty string *)
| ConfigTypeProject
| ConfigTypeProjectGroup
| ConfigTypeOther (s : string).

#[global] Instance ConfigType_eq_dec : EqDecision ConfigType.
Proof. solve_decision. Defined.

(** [types.SecretType] *)
Inductive SecretType :=
| SecretTypeNone
| SecretTypeInternal
| SecretTypeExternal.

Record Parent := {
  parent_Type : ConfigType;
  parent_ID : string;
  parent_Path : string
}.

Record VariableValue := {
  vv_SecretName : string;
  vv_SecretVar : string
}.

(** [types.Variable] ([Variable] is a Rocq keyword). *)
Record TVariable := {
  var_ID : string;
  var_Name : string;
  var_Values : list VariableValue;
  var_Parent : Parent
}.

Record Secret := {
  sec_ID : string;
  sec_Name : string;
  sec_Type : SecretType;
  sec_Data : list (string * string);
  sec_Parent : Parent
}.

End Types.

(* ===================================================================== *)
(** ** Variable and secret resolution (package [services/common])        *)
(* ===================================================================== *)

Module Common.
Import Types.

(** Modelled from the spec: [FilterOverridenVariables] is not in the
    sources (only [TestFilterOverridenVariables] is).  It keeps the first
    occurrence of each name, remembering the names already seen. *)
Fixpoint filterOverriden (seen : gset string) (variables : list TVariable)
  : list TVariable :=
  match variables with
  | [] => []
  | v :: vs =>
      if bool_decide (var_Name v ∈ seen) then filterOverriden seen vs
      else v :: filterOverriden ({[var_Name v]} ∪ seen) vs
  end.

Definition FilterOverridenVariables (variables : list TVariable) : list TVariable :=
  filterOverriden ∅ variables.

(** Modelled from the spec: [P] is an ancestor of [Q] iff [Q = P] or [Q]
    begins with [P + "/"]. *)
Definition isAncestorOrEqual (p q : string) : bool :=
  String.eqb q p || String.prefix (p ++ "/") q.

(** Depth of a slash separated path: its number of separators. *)
Definition pathDepth (p : string) : nat :=
  length (List.filter (fun c => Ascii.eqb c "/"%char) (list_ascii_of_string p)).

Definition candidateSecret (varval : VariableValue) (varParentPath : string)
    (s : Secret) : bool :=
  String.eqb (sec_Name s) (vv_SecretName varval) &&
  isAncestorOrEqual (parent_Path (sec_Parent s)) varParentPath.

(** Modelled from the spec: [GetVarValueMatchingSecret] is not in the
    sources (only [TestGetVarValueMatchingSecret] is).  Among the secrets
    with the referenced name whose parent path is an ancestor of or equal
    to the variable's parent path, the deepest one is chosen (the first of
    them on ties); [None] stands for [nil]. *)
Definition GetVarValueMatchingSecret (varval : VariableValue)
    (varParentPath : string) (secrets : list Secret) : option Secret :=
  fold_left (fun best s =>
    if candidateSecret varval varParentPath s then
      match best with
      | None => Some s
      | Some b =>
          if Nat.ltb (pathDepth (parent_Path (sec_Parent b)))
                     (pathDepth (parent_Path (sec_Parent s)))
          then Some s else best
      end
    else best) secrets None.

End Common.

(** Fixtures of [TestFilterOverridenVariables] and
    [TestGetVarValueMatchingSecret]. *)
Module CommonFixtures.
Import Types.

Definition atPath (p : string) : Parent :=
  {| parent_Type := ConfigTypeProjectGroup; parent_ID := ""; parent_Path := p |}.

Definition var (name path : string) : TVariable :=
  {| var_ID := ""; var_Name := name; var_Values := []; var_Parent := atPath path |}.

Definition sec (name path : string) : Secret :=
  {| sec_ID := ""; sec_Name := name; sec_Type := SecretTypeInternal; sec_Data := [];
     sec_Parent := atPath path |}.

Definition testVariables : list TVariable :=
  [var "var04" "org/org01/projectgroup02/projectgroup03/project02";
   var "var03" "org/org01/projectgroup01/project01";
   var "var02" "org/org01/projectgroup01/project01";
   var "var02" "org/org01/projectgroup01";
   var "var01" "org/org01/projectgroup01";
   var "var01" "org/org01"].

Definition secretRef : VariableValue :=
  {| vv_SecretName := "secret01"; vv_SecretVar := "secretvar01" |}.

Definition testSecrets : list Secret :=
  [sec "secret01" "org/org01/projectgroup01/projectgroup02/project01";
   sec "secret01" "org/org01/projectgroup01/projectgroup02";
   sec "secret01" "org/org01/projectgroup01"].

End CommonFixtures.

(* ===================================================================== *)
(** ** Errors ([internal/util]) and a small error monad                  *)
(* ===================================================================== *)

Module Util.

(** The error kinds of [internal/util]: [util.NewErrBadRequest],
    [util.NewErrNotFound], the datamanager's conflict error, and any
    other (plain) error. *)
Inductive ErrKind := ErrBadRequest | ErrNotFound | ErrConflict | ErrOther.

Record Error := { err_kind : ErrKind; err_msg : string }.

Definition NewErrBadRequest (msg : string) : Error := {| err_kind := ErrBadRequest; err_msg := msg |}.
Definition NewErrNotFound (msg : string) : Error := {| err_kind := ErrNotFound; err_msg := msg |}.

Definition IsErrBadRequest (e : Error) : bool :=
  match err_kind e with ErrBadRequest => true | _ => false end.
Definition IsErrNotFound (e : Error) : bool :=
  match err_kind e with ErrNotFound => true | _ => false end.

(** A Go [(value, error)] pair for code that returns on the first error. *)
Inductive result (A : Type) := Ok (a : A) | Err (e : Error).
Arguments Ok {A} a.
Arguments Err {A} e.

Global Instance result_ret : MRet result := fun A a => Ok a.
Global Instance result_bind : MBind result := fun A B f m =>
  match m with Ok a => f a | Err e => Err e end.

Definition fail {A} (e : Error) : result A := Err e.

End Util.

(* ===================================================================== *)
(** ** Configstore: read database, WAL datamanager, create actions       *)
(* ===================================================================== *)

Module ConfigStore.
Import Types Util.

(** A WAL action ([datamanager.Action]); the payload of a put is kept as
    the entity it serialises. *)
Inductive Action :=
| ActionPutSecret (s : Secret)
| ActionPutVariable (v : TVariable)
| ActionDelete (dataType id : string).

(** [datamanager.ChangeGroupsUpdateToken]: the revision of each named
    change group, as seen by the read transaction that captured it. *)
Abbreviation ChangeGroupsUpdateToken := (gmap string nat).

(** The persisted state: the committed configstore entities (as projected
    by the read database), the configuration entities a parent reference
    resolves to, the change group revisions and the WAL sequence. *)
Record Store := {
  st_secrets : list Secret;
  st_variables : list TVariable;
  st_configIDs : list (ConfigType * string * string);  (* type, ref, id *)
  st_cgRevisions : gmap string nat;
  st_walSeq : nat
}.

Definition cgRevision (st : Store) (name : string) : nat :=
  default 0 (st_cgRevisions st !! name).

(** Modelled from the spec: [readDB.GetChangeGroupsUpdateTokens]
    (package [configstore/readdb], not in the sources) returns the current
    revision of each named change group. *)
Definition GetChangeGroupsUpdateTokens (st : Store) (cgNames : list string)
  : result ChangeGroupsUpdateToken :=
  Ok (list_to_map (map (fun n => (n, cgRevision st n)) cgNames)).

(** Modelled from the spec: [readDB.ResolveConfigID] resolves a project or
    project group reference to its id. *)
Definition ResolveConfigID (st : Store) (t : ConfigType) (ref : string) : result string :=
  match List.find (fun '(t', r, _) => bool_decide (t' = t) && String.eqb r ref)
                  (st_configIDs st) with
  | Some (_, _, id) => Ok id
  | None => Err (NewErrNotFound "config entity doesn't exist")
  end.

(** Modelled from the spec: [readDB.GetSecretByName]. *)
Definition GetSecretByName (st : Store) (parentID name : string) : result (option Secret) :=
  Ok (List.find (fun s => String.eqb (parent_ID (sec_Parent s)) parentID
                          && String.eqb (sec_Name s) name) (st_secrets st)).

(** Modelled from the spec: [readDB.GetVariableByName]. *)
Definition GetVariableByName (st : Store) (parentID name : string) : result (option TVariable) :=
  Ok (List.find (fun v => String.eqb (parent_ID (var_Parent v)) parentID
                          && String.eqb (var_Name v) name) (st_variables st)).

Definition applyAction (st : Store) (a : Action) : Store :=
  match a with
  | ActionPutSecret s =>
      {| st_secrets := s :: st_secrets st; st_variables := st_variables st;
         st_configIDs := st_configIDs st; st_cgRevisions := st_cgRevisions st;
         st_walSeq := st_walSeq st |}
  | ActionPutVariable v =>
      {| st_secrets := st_secrets st; st_variables := v :: st_variables st;
         st_configIDs := st_configIDs st; st_cgRevisions := st_cgRevisions st;
         st_walSeq := st_walSeq st |}
  | ActionDelete _ _ => st
  end.

Definition tokenValid (st : Store) (cgt : ChangeGroupsUpdateToken) : bool :=
  forallb (fun '(n, rev) => Nat.eqb (cgRevision st n) rev) (map_to_list cgt).

(** Modelled from the spec (section 4.1): [dm.WriteWal] (package
    [datamanager], not in the sources) fails with a conflict when a change
    group of the token moved since the token was captured; otherwise it
    applies the actions, bumps the revisions of the token's change groups
    and returns the new WAL sequence. *)
Definition WriteWal (st : Store) (actions : list Action) (cgt : ChangeGroupsUpdateToken)
  : result nat * Store :=
  if tokenValid st cgt then
    let st1 := fold_left applyAction actions st in
    let seq := S (st_walSeq st) in
    (Ok seq,
     {| st_secrets := st_secrets st1; st_variables := st_variables st1;
        st_configIDs := st_configIDs st1;
        st_cgRevisions := map_fold (fun n _ m => <[n := S (cgRevision st n)]> m)
                                   (st_cgRevisions st1) cgt;
        st_walSeq := seq |})
  else (Err {| err_kind := ErrConflict; err_msg := "update conflict" |}, st).

Section Handler.
(** [util.ValidateName] and [util.EncodeSha256Hex] are not in the
    sources: the handler is defined for any name validator and any
    change group name encoding. *)
Variable ValidateName : string -> bool.
Variable EncodeSha256Hex : string -> string.

Definition with_secret_parent_id (s : Secret) (pid : string) : Secret :=
  {| sec_ID := sec_ID s; sec_Name := sec_Name s; sec_Type := sec_Type s;
     sec_Data := sec_Data s;
     sec_Parent := {| parent_Type := parent_Type (sec_Parent s); parent_ID := pid;
                      parent_Path := parent_Path (sec_Parent s) |} |}.

Definition with_secret_id (s : Secret) (id : string) : Secret :=
  {| sec_ID := id; sec_Name := sec_Name s; sec_Type := sec_Type s;
     sec_Data := sec_Data s; sec_Parent := sec_Parent s |}.

Definition isProjectOrGroup (t : ConfigType) : bool :=
  match t with ConfigTypeProject | ConfigTypeProjectGroup => true | _ => false end.

(** The argument checks of [CreateSecret], in source order. *)
Definition validateSecret (secret : Secret) : result unit :=
  if String.eqb (sec_Name secret) "" then fail (NewErrBadRequest "secret name required") else
  if negb (ValidateName (sec_Name secret)) then fail (NewErrBadRequest "invalid secret name") else
  match sec_Type secret with
  | SecretTypeInternal => Ok tt
  | _ => fail (NewErrBadRequest "invalid secret type")
  end ≫= fun _ =>
  (match sec_Type secret with
   | SecretTypeInternal =>
       if bool_decide (sec_Data secret = []) then fail (NewErrBadRequest "empty secret data")
       else Ok tt
   | _ => Ok tt
   end) ≫= fun _ =>
  match parent_Type (sec_Parent secret) with
  | ConfigTypeNone => fail (NewErrBadRequest "secret parent type required")
  | _ =>
      if String.eqb (parent_ID (sec_Parent secret)) "" then
        fail (NewErrBadRequest "secret parentid required")
      else if negb (isProjectOrGroup (parent_Type (sec_Parent secret))) then
        fail (NewErrBadRequest "invalid secret parent type")
      else Ok tt
  end.

(** The read transaction of [CreateSecret] ([h.readDB.Do(...)]): capture
    the change group token, resolve the parent id and check for a secret
    with the same name under that parent. *)
Definition createSecretReadTx (st : Store) (secret : Secret)
  : result (ChangeGroupsUpdateToken * Secret) :=
  let cgNames := [EncodeSha256Hex ("secretname-" ++ sec_Name secret)] in
  cgt ← GetChangeGroupsUpdateTokens st cgNames;
  parentID ← ResolveConfigID st (parent_Type (sec_Parent secret)) (parent_ID (sec_Parent secret));
  let secret := with_secret_parent_id secret parentID in
  s ← GetSecretByName st (parent_ID (sec_Parent secret)) (sec_Name secret);
  match s with
  | Some _ => fail (NewErrBadRequest "secret with name already exists")
  | None => Ok (cgt, secret)
  end.

(** Everything [CreateSecret] does before [WriteWal]. *)
Definition createSecretPrepare (st : Store) (secret : Secret)
  : result (ChangeGroupsUpdateToken * Secret) :=
  validateSecret secret ≫= fun _ => createSecretReadTx st secret.

(** The write of [CreateSecret]: a fresh id ([uuid.NewV4()], given as
    [newID]) and one put action written with the captured token.  Like the
    Go code it returns the secret together with the [WriteWal] error. *)
Definition createSecretWrite (st : Store) (newID : string)
    (prepared : ChangeGroupsUpdateToken * Secret)
  : option Secret * option Error * Store :=
  let '(cgt, secret) := prepared in
  let secret := with_secret_id secret newID in
  let '(r, st') := WriteWal st [ActionPutSecret secret] cgt in
  match r with
  | Ok _ => (Some secret, None, st')
  | Err e => (Some secret, Some e, st')
  end.

(** [ActionHandler.CreateSecret] *)
Definition CreateSecret (st : Store) (newID : string) (secret : Secret)
  : option Secret * option Error * Store :=
  match createSecretPrepare st secret with
  | Err e => (None, Some e, st)
  | Ok prepared => createSecretWrite st newID prepared
  end.

Definition with_variable_parent_id (v : TVariable) (pid : string) : TVariable :=
  {| var_ID := var_ID v; var_Name := var_Name v; var_Values := var_Values v;
     var_Parent := {| parent_Type := parent_Type (var_Parent v); parent_ID := pid;
                      parent_Path := parent_Path (var_Parent v) |} |}.

Definition with_variable_id (v : TVariable) (id : string) : TVariable :=
  {| var_ID := id; var_Name := var_Name v; var_Values := var_Values v;
     var_Parent := var_Parent v |}.

(** The argument checks of [CreateVariable], in source order. *)
Definition validateVariable (variable : TVariable) : result unit :=
  if String.eqb (var_Name variable) "" then fail (NewErrBadRequest "variable name required") else
  if negb (ValidateName (var_Name variable)) then fail (NewErrBadRequest "invalid variable name") else
  if bool_decide (var_Values variable = []) then fail (NewErrBadRequest "variable values required") else
  match parent_Type (var_Parent variable) with
  | ConfigTypeNone => fail (NewErrBadRequest "variable parent type required")
  | _ =>
      if String.eqb (parent_ID (var_Parent variable)) "" then
        fail (NewErrBadRequest "variable parent id required")
      else if negb (isProjectOrGroup (parent_Type (var_Parent variable))) then
        fail (NewErrBadRequest "invalid variable parent type")
      else Ok tt
  end.

Definition createVariableReadTx (st : Store) (variable : TVariable)
  : result (ChangeGroupsUpdateToken * TVariable) :=
  let cgNames := [EncodeSha256Hex ("variablename-" ++ var_Name variable)] in
  cgt ← GetChangeGroupsUpdateTokens st cgNames;
  parentID ← ResolveConfigID st (parent_Type (var_Parent variable)) (parent_ID (var_Parent variable));
  let variable := with_variable_parent_id variable parentID in
  s ← GetVariableByName st (parent_ID (var_Parent variable)) (var_Name variable);
  match s with
  | Some _ => fail (NewErrBadRequest "variable with name already exists")
  | None => Ok (cgt, variable)
  end.

(** [ActionHandler.CreateVariable] *)
Definition CreateVariable (st : Store) (newID : string) (variable : TVariable)
  : option TVariable * option Error * Store :=
  match validateVariable variable ≫= fun _ => createVariableReadTx st variable with
  | Err e => (None, Some e, st)
  | Ok (cgt, variable) =>
      let variable := with_variable_id variable newID in
      let '(r, st') := WriteWal st [ActionPutVariable variable] cgt in
      match r with
      | Ok _ => (Some variable, None, st')
      | Err e => (Some variable, Some e, st')
      end
  end.

(** Two [CreateSecret] calls running concurrently.  A call has two atomic
    steps that touch the shared store: its checks with the read
    transaction, then its [WriteWal]. *)
Inductive Thread :=
| TStart (newID : string) (secret : Secret)
| TPrepared (newID : string) (prepared : ChangeGroupsUpdateToken * Secret)
| TDone (out : option Secret * option Error).

Definition stepThread (st : Store) (th : Thread) : Thread * Store :=
  match th with
  | TStart newID secret =>
      match createSecretPrepare st secret with
      | Err e => (TDone (None, Some e), st)
      | Ok p => (TPrepared newID p, st)
      end
  | TPrepared newID p =>
      let '(o, e, st') := createSecretWrite st newID p in (TDone (o, e), st')
  | TDone _ => (th, st)
  end.

(** A schedule names the thread that steps: [false] for the first call,
    [true] for the second. *)
Fixpoint runSchedule (st : Store) (a b : Thread) (sched : list bool)
  : Thread * Thread * Store :=
  match sched with
  | [] => (a, b, st)
  | false :: rest => let '(a', st') := stepThread st a in runSchedule st' a' b rest
  | true :: rest => let '(b', st') := stepThread st b in runSchedule st' a b' rest
  end.

(** The schedules in which the two calls overlap: each call's read
    transaction runs before the other call's write. *)
Definition overlappingSchedules : list (list bool) :=
  [[false; true; false; true]; [false; true; true; false];
   [true; false; false; true]; [true; false; true; false]].

End Handler.
End ConfigStore.

(* ===================================================================== *)
(** ** HTTP error responses                                              *)
(* ===================================================================== *)

Module Http.
Import Util.

(** A response as written on the [http.ResponseWriter]. *)
Inductive Body :=
| BodyText (s : string)            (* [http.Error] writes the text and a newline *)
| BodyJSONMessage (message : string)  (* [json.Marshal(&ErrorResponse{...})] *)
| BodyNone.

Record Response := { resp_status : Z; resp_body : Body }.

Definition StatusBadRequest : Z := 400.
Definition StatusNotFound : Z := 404.
Definition StatusInternalServerError : Z := 500.

Definition newline : string := String (Ascii.ascii_of_nat 10) EmptyString.

(** [http.Error(w, msg, code)] *)
Definition httpErrorText (msg : string) (code : Z) : Response :=
  {| resp_status := code; resp_body := BodyText (msg ++ newline) |}.

(** [ErrorResponseFromError] of the configstore api: the message of a bad
    request or not found error, a generic message otherwise. *)
Definition ErrorResponseFromError (err : Error) : string :=
  if IsErrBadRequest err then err_msg err
  else if IsErrNotFound err then err_msg err
  else "internal server error".

(** [httpError] of the configstore api ([configstore/api/api.go]); the
    marshalling of an [ErrorResponse] (a struct with one string field)
    cannot fail.  [None] is a nil error: nothing is written. *)
Definition configstoreHttpError (err : option Error) : option Response :=
  match err with
  | None => None
  | Some err =>
      let message := ErrorResponseFromError err in
      if IsErrBadRequest err then
        Some {| resp_status := StatusBadRequest; resp_body := BodyJSONMessage message |}
      else if IsErrNotFound err then
        Some {| resp_status := StatusNotFound; resp_body := BodyJSONMessage message |}
      else
        Some {| resp_status := StatusInternalServerError; resp_body := BodyJSONMessage message |}
  end.

(** [httpError] of the gateway api (the [api] package file with
    [GetConfigTypeRef] and the [http.Error] based helper). *)
Definition gatewayHttpError (err : option Error) : option Response :=
  match err with
  | None => None
  | Some err =>
      if IsErrBadRequest err then Some (httpErrorText (err_msg err) StatusBadRequest)
      else Some (httpErrorText "" StatusInternalServerError)
  end.

End Http.

(* ===================================================================== *)
(** ** Gitlab webhooks ([gitlab] package, parse.go)                      *)
(* ===================================================================== *)

Module Webhook.
Import Util.

Record commit := { commit_ID : string; commit_Message : string; commit_URL : string }.
Record project := { PathWithNamespace : string; WebURL : string }.

Record pushHook := {
  push_After : string;
  push_Ref : string;
  push_Commits : list commit;
  push_UserName : string;
  push_UserUsername : string;
  push_Project : project
}.

Record objectAttributes := {
  oa_Iid : Z;
  oa_State : string;
  oa_Action : string;
  oa_SourceBranch : string;
  oa_Title : string;
  oa_URL : string;
  oa_LastCommit : commit
}.

Record user := { user_Name : string; user_Username : string }.

Record pullRequestHook := {
  pr_User : user;
  pr_ObjectAttributes : objectAttributes;
  pr_Project : project
}.

Inductive WebhookEvent := WebhookEventPush | WebhookEventTag | WebhookEventPullRequest.

(** [types.WebhookData] *)
Record WebhookData := {
  whd_Event : option WebhookEvent;
  whd_CommitSHA : string;
  whd_Ref : string;
  whd_CommitLink : string;
  whd_Branch : string;
  whd_BranchLink : string;
  whd_Tag : string;
  whd_TagLink : string;
  whd_Message : string;
  whd_Sender : string;
  whd_PullRequestID : string;
  whd_PullRequestLink : string;
  whd_RepoPath : string;
  whd_RepoWebURL : string
}.

(** Decimal digits of a natural number ([strconv.Itoa], [%d]); the fuel
    covers every 64 bit value. *)
Fixpoint digits (fuel : nat) (n : N) (acc : string) : string :=
  match fuel with
  | O => acc
  | S f =>
      let acc' := String (Ascii.ascii_of_N (48 + N.modulo n 10)%N) acc in
      if N.eqb (N.div n 10) 0%N then acc' else digits f (N.div n 10) acc'
  end.

Definition Itoa (z : Z) : string :=
  if Z.ltb z 0 then "-" ++ digits 20 (Z.to_N (- z)) ""
  else digits 20 (Z.to_N z) "".

(** [strings.TrimPrefix] *)
Definition TrimPrefix (s p : string) : string :=
  if String.prefix p s then substring (String.length p) (String.length s - String.length p) s
  else s.

(** [webhookDataFromPush]; [hook.Commits] is not empty here. *)
Definition webhookDataFromPush (hook : pushHook) : result WebhookData :=
  let sender := if String.eqb (push_UserName hook) "" then push_UserUsername hook
                else push_UserName hook in
  let commitLink := match push_Commits hook with c :: _ => commit_URL c | [] => "" end in
  let web := WebURL (push_Project hook) in
  let mk ev branch branchLink tag tagLink msg :=
    {| whd_Event := Some ev; whd_CommitSHA := push_After hook; whd_Ref := push_Ref hook;
       whd_CommitLink := commitLink; whd_Branch := branch; whd_BranchLink := branchLink;
       whd_Tag := tag; whd_TagLink := tagLink; whd_Message := msg; whd_Sender := sender;
       whd_PullRequestID := ""; whd_PullRequestLink := "";
       whd_RepoPath := PathWithNamespace (push_Project hook); whd_RepoWebURL := web |} in
  if String.prefix "refs/heads/" (push_Ref hook) then
    let branch := TrimPrefix (push_Ref hook) "refs/heads/" in
    let msg := match push_Commits hook with c :: _ => commit_Message c | [] => "" end in
    Ok (mk WebhookEventPush branch (web ++ "/tree/" ++ branch) "" "" msg)
  else if String.prefix "refs/tags/" (push_Ref hook) then
    let tag := TrimPrefix (push_Ref hook) "refs/tags/" in
    Ok (mk WebhookEventTag "" "" tag (web ++ "/tree/" ++ tag) ("Tag " ++ tag))
  else Err {| err_kind := ErrOther; err_msg := "unsupported webhook ref" |}.

(** [webhookDataFromPullRequest] *)
Definition webhookDataFromPullRequest (hook : pullRequestHook) : WebhookData :=
  let sender := if String.eqb (user_Name (pr_User hook)) "" then user_Username (pr_User hook)
                else user_Name (pr_User hook) in
  let oa := pr_ObjectAttributes hook in
  {| whd_Event := Some WebhookEventPullRequest;
     whd_CommitSHA := commit_ID (oa_LastCommit oa);
     whd_Ref := "refs/merge-requests/" ++ Itoa (oa_Iid oa) ++ "/head";
     whd_CommitLink := commit_URL (oa_LastCommit oa);
     whd_Branch := oa_SourceBranch oa; whd_BranchLink := "";
     whd_Tag := ""; whd_TagLink := "";
     whd_Message := oa_Title oa; whd_Sender := sender;
     whd_PullRequestID := Itoa (oa_Iid oa); whd_PullRequestLink := oa_URL oa;
     whd_RepoPath := PathWithNamespace (pr_Project hook);
     whd_RepoWebURL := WebURL (pr_Project hook) |}.

Section Parse.
(** The JSON decoding of a payload ([json.NewDecoder(r).Decode]). *)
Variable payload : Type.
Variable parsePush : payload -> result pushHook.
Variable parsePullRequest : payload -> result pullRequestHook.

(** [parsePushHook]: a Go pair of webhook data (or nil) and error. *)
Definition parsePushHook (p : payload) : option WebhookData * option Error :=
  match parsePush p with
  | Err e => (None, Some e)
  | Ok push =>
      (* skip push events with 0 commits. i.e. a tag deletion. *)
      match push_Commits push with
      | [] => (None, None)
      | _ =>
          match webhookDataFromPush push with
          | Ok whd => (Some whd, None)
          | Err e => (None, Some e)
          end
      end
  end.

(** [parsePullRequestHook]: the filters on the pull request state and
    action are commented out in the source. *)
Definition parsePullRequestHook (p : payload) : option WebhookData * option Error :=
  match parsePullRequest p with
  | Err e => (None, Some e)
  | Ok prhook => (Some (webhookDataFromPullRequest prhook), None)
  end.
End Parse.

End Webhook.

(* ===================================================================== *)
(** ** The [limit] query parameter of the list endpoints                 *)
(* ===================================================================== *)

Module ListLimit.
Import Util.
Local Open Scope Z_scope.

Fixpoint parseDigits (s : string) (acc : Z) : option Z :=
  match s with
  | EmptyString => Some acc
  | String c rest =>
      let d := Z.of_nat (Ascii.nat_of_ascii c) - 48 in
      if (0 <=? d) && (d <=? 9) then parseDigits rest (acc * 10 + d) else None
  end.

(** [strconv.Atoi] on a 64 bit platform: an optional sign, at least one
    decimal digit and nothing else, and a value that fits an [int]. *)
Definition Atoi (s : string) : option Z :=
  let '(neg, digitsS) :=
    match s with
    | String "-" rest => (true, rest)
    | String "+" rest => (false, rest)
    | _ => (false, s)
    end in
  match digitsS with
  | EmptyString => None
  | _ =>
      match parseDigits digitsS 0 with
      | None => None
      | Some n =>
          let v := if neg then - n else n in
          if (- 2 ^ 63 <=? v) && (v <=? 2 ^ 63 - 1) then Some v else None
      end
  end.

(** The limit handling shared by the list handlers ([UsersHandler] of the
    configstore, [OrgsHandler], [UsersHandler] and [RemoteSourcesHandler]
    of the gateway): [limitS] is [query.Get("limit")], the empty string
    when the parameter is missing.  An error here is passed to the
    handler's error helper and the handler returns. *)
Definition queryLimit (defaultLimit maxLimit : Z) (limitS : string) : result Z :=
  (if String.eqb limitS "" then Ok defaultLimit
   else match Atoi limitS with
        | Some n => Ok n
        | None => Err (NewErrBadRequest "cannot parse limit")
        end) ≫= fun limit =>
  if limit <? 0 then Err (NewErrBadRequest "limit must be greater or equal than 0")
  else if maxLimit <? limit then Ok maxLimit
  else Ok limit.

(** [DefaultUsersLimit] and [MaxUsersLimit] of the configstore api. *)
Definition DefaultUsersLimit : Z := 10.
Definition MaxUsersLimit : Z := 20.

(** The configstore [UsersHandler]. *)
Definition usersLimit (limitS : string) : result Z :=
  queryLimit DefaultUsersLimit MaxUsersLimit limitS.

End ListLimit.

(** A configstore with two project groups, used by the examples below. *)
Module ConfigStoreFixtures.
Import Types Util ConfigStore.

(** A name validator and a change group encoding to run the handlers
    with. *)
Definition validName (s : string) : bool := negb (String.eqb s "").
Definition encodeName (s : string) : string := s.

Definition store0 : Store :=
  {| st_secrets := []; st_variables := [];
     st_configIDs := [(ConfigTypeProjectGroup, "org/o1/pg1", "pg1id");
                      (ConfigTypeProjectGroup, "org/o1/pg2", "pg2id")];
     st_cgRevisions := ∅; st_walSeq := 0 |}.

Definition newSecret (name parentRef : string) : Secret :=
  {| sec_ID := ""; sec_Name := name; sec_Type := SecretTypeInternal;
     sec_Data := [("key", "value")];
     sec_Parent := {| parent_Type := ConfigTypeProjectGroup; parent_ID := parentRef;
                      parent_Path := parentRef |} |}.

Definition newVariable (name parentRef : string) : TVariable :=
  {| var_ID := ""; var_Name := name;
     var_Values := [{| vv_SecretName := "secret01"; vv_SecretVar := "key" |}];
     var_Parent := {| parent_Type := ConfigTypeProjectGroup; parent_ID := parentRef;
                      parent_Path := parentRef |} |}.

(** The store after a first secret [secret01] was created in [pg1]. *)
Definition store1 : Store :=
  snd (CreateSecret validName encodeName store0 "id1" (newSecret "secret01" "org/o1/pg1")).

End ConfigStoreFixtures.

(* ===================================================================== *)
(** ** Path escaping ([net/url]) and [GetConfigTypeRef]                  *)
(* ===================================================================== *)

Module Url.
Import Util.

Definition between (lo hi n : nat) : bool := Nat.leb lo n && Nat.leb n hi.

(** [url.shouldEscape(c, encodePathSegment)] *)
Definition shouldEscape (c : ascii) : bool :=
  let n := Ascii.nat_of_ascii c in
  if between 97 122 n || between 65 90 n || between 48 57 n then false
  else match c with
       | "-" | "_" | "." | "~" => false
       | "$" | "&" | "+" | "," | "/" | ":" | ";" | "=" | "?" | "@" =>
           Ascii.eqb c "/" || Ascii.eqb c ";" || Ascii.eqb c "," || Ascii.eqb c "?"
       | _ => true
       end%char.

(** [upperhex[n]] for [n < 16] *)
Definition upperhex (n : nat) : ascii :=
  Ascii.ascii_of_nat (if Nat.ltb n 10 then 48 + n else 55 + n).

(** One byte of [url.escape(s, encodePathSegment)]: kept, or written as
    [%] and two upper case hex digits. *)
Definition escapeChar (c : ascii) : string :=
  if shouldEscape c then
    String "%" (String (upperhex (Ascii.nat_of_ascii c / 16))
                  (String (upperhex (Ascii.nat_of_ascii c mod 16)) EmptyString))
  else String c EmptyString.

(** [url.PathEscape] *)
Fixpoint PathEscape (s : string) : string :=
  match s with
  | EmptyString => EmptyString
  | String c rest => escapeChar c ++ PathEscape rest
  end.

(** [url.ishex] and [url.unhex] *)
Definition ishex (c : ascii) : bool :=
  let n := Ascii.nat_of_ascii c in between 48 57 n || between 97 102 n || between 65 70 n.

Definition unhex (c : ascii) : nat :=
  let n := Ascii.nat_of_ascii c in
  if between 48 57 n then n - 48
  else if between 97 102 n then n - 87
  else if between 65 70 n then n - 55
  else 0.

(** [url.unescape(s, encodePathSegment)]: a [%] must be followed by two
    hex digits; [+] and every other byte are kept. *)
Fixpoint unescapePath (s : string) : option string :=
  match s with
  | EmptyString => Some EmptyString
  | String c rest =>
      if Ascii.eqb c "%" then
        match rest with
        | String h1 (String h2 rest') =>
            if ishex h1 && ishex h2 then
              String (Ascii.ascii_of_nat (unhex h1 * 16 + unhex h2)) <$> unescapePath rest'
            else None
        | _ => None
        end
      else String c <$> unescapePath rest
  end.

(** [url.PathUnescape]; the error is an [url.EscapeError]. *)
Definition PathUnescape (s : string) : result string :=
  match unescapePath s with
  | Some t => Ok t
  | None => Err {| err_kind := ErrOther; err_msg := "invalid URL escape" |}
  end.

End Url.

Module ConfigTypeRef.
Import Types Util Url.

(** [mux.Vars(r)[k]]: the empty string for a variable the route does not
    have. *)
Definition muxVar (vars : gmap string string) (k : string) : string :=
  default "" (vars !! k).

(** [GetConfigTypeRef] (the same function in the configstore and in the
    gateway api); a Go [("", "", err)] is an [Err]. *)
Definition GetConfigTypeRef (vars : gmap string string) : result (ConfigType * string) :=
  match PathUnescape (muxVar vars "projectref") with
  | Err _ => Err (NewErrBadRequest "wrong projectref")
  | Ok projectRef =>
      if negb (String.eqb projectRef "") then Ok (ConfigTypeProject, projectRef)
      else
        match PathUnescape (muxVar vars "projectgroupref") with
        | Err _ => Err (NewErrBadRequest "wrong projectgroupref")
        | Ok projectGroupRef =>
            if negb (String.eqb projectGroupRef "") then
              Ok (ConfigTypeProjectGroup, projectGroupRef)
            else Err (NewErrBadRequest "cannot get project or projectgroup ref")
        end
  end.

(** The project reference the [project secret create] command puts in the
    request path ([url.PathEscape(projectSecretCreateOpts.projectID)]). *)
Definition projectSecretCreateRef (projectID : string) : string := PathEscape projectID.

End ConfigTypeRef.

(* ===================================================================== *)
(** ** The dispatch of a gitlab webhook on its event header              *)
(* ===================================================================== *)

Module WebhookDispatch.
Import Util Webhook.

Section Dispatch.
Variable payload : Type.
Variable parsePush : payload -> result pushHook.
Variable parsePullRequest : payload -> result pullRequestHook.
(** [errors.Errorf("unknown webhook event type: %q", header)] *)
Variable unknownEventError : string -> Error.

(** [parseWebhook]: [hookEventHeader] is [r.Header.Get("X-Gitlab-Event")],
    the empty string when the header is missing. *)
Definition parseWebhook (hookEventHeader : string) (body : payload)
    : option WebhookData * option Error :=
  if String.eqb hookEventHeader "Push Hook" then parsePushHook payload parsePush body
  else if String.eqb hookEventHeader "Tag Push Hook" then parsePushHook payload parsePush body
  else if String.eqb hookEventHeader "Merge Request Hook" then
    parsePullRequestHook payload parsePullRequest body
  else (None, Some (unknownEventError hookEventHeader)).
End Dispatch.

End WebhookDispatch.

Module WebhookFixtures.
Import Util Webhook.
Open Scope string_scope.

Definition sampleCommit : commit :=
  {| commit_ID := "c0ffee"; commit_Message := "fix build";
     commit_URL := "https://gitlab.example.com/org01/repo01/commit/c0ffee" |}.
Definition sampleProject : project :=
  {| PathWithNamespace := "org01/repo01"; WebURL := "https://gitlab.example.com/org01/repo01" |}.
Definition samplePush (ref : string) : pushHook :=
  {| push_After := "c0ffee"; push_Ref := ref; push_Commits := [sampleCommit];
     push_UserName := ""; push_UserUsername := "user01"; push_Project := sampleProject |}.
Definition samplePullRequest (iid : Z) : pullRequestHook :=
  {| pr_User := {| user_Name := "User 01"; user_Username := "user01" |};
     pr_ObjectAttributes :=
       {| oa_Iid := iid; oa_State := "opened"; oa_Action := "open"; oa_SourceBranch := "feature";
          oa_Title := "add feature"; oa_URL := "https://gitlab.example.com/org01/repo01/merge_requests/1";
          oa_LastCommit := sampleCommit |};
     pr_Project := sampleProject |}.
Definition decodeError : Error := {| err_kind := ErrOther; err_msg := "unexpected EOF" |}.
Definition unknownEvent (header : string) : Error :=
  {| err_kind := ErrOther; err_msg := "unknown webhook event type: " ++ header |}.

End WebhookFixtures.

(* ===================================================================== *)
(** ** The [limit] query parameter of the gateway [UsersHandler]         *)
(* ===================================================================== *)

Module GatewayLimit.
Import Util Http ListLimit.
Local Open Scope Z_scope.

(** The limit code of the gateway [UsersHandler] ([gateway/api/user.go]),
    which writes its rejections with [http.Error] itself: [inl] is the
    limit passed on to [GetUsers], [inr] the response written before
    returning.  [defaultRunsLimit] and [maxRunsLimit] are the gateway's
    [DefaultRunsLimit] and [MaxRunsLimit]. *)
Definition gatewayUsersLimit (defaultRunsLimit maxRunsLimit : Z) (limitS : string) : Z + Response :=
  let check limit :=
    if limit <? 0 then inr (httpErrorText "limit must be greater or equal than 0" StatusBadRequest)
    else if maxRunsLimit <? limit then inl maxRunsLimit
    else inl limit in
  if String.eqb limitS "" then check defaultRunsLimit
  else match Atoi limitS with
       | Some n => check n
       | None => inr (httpErrorText "" StatusBadRequest)
       end.

End GatewayLimit.

(* ===================================================================== *)
(** ** [DeleteSecret] and [DeleteVariable] of the configstore            *)
(* ===================================================================== *)

Module ConfigStoreDelete.
Import Types Util ConfigStore.

Section Delete.
(** [util.EncodeSha256Hex], and the strings of [types.ConfigTypeSecret]
    and [types.ConfigTypeVariable], are not in the sources. *)
Variable EncodeSha256Hex : string -> string.
Variable ConfigTypeSecret ConfigTypeVariable : string.

(** The read transaction of [DeleteSecret]: resolve the parent, find the
    secret by name, capture the token of the secret id change group.  As
    in [CreateSecret] the name is left out of the error message. *)
Definition deleteSecretReadTx (st : Store) (parentType : ConfigType) (parentRef secretName : string)
  : result (Secret * ChangeGroupsUpdateToken) :=
  parentID ← ResolveConfigID st parentType parentRef;
  secret ← GetSecretByName st parentID secretName;
  match secret with
  | None => fail (NewErrBadRequest "secret with name doesn't exist")
  | Some secret =>
      let cgNames := [EncodeSha256Hex ("secretid-" ++ sec_ID secret)] in
      cgt ← GetChangeGroupsUpdateTokens st cgNames;
      Ok (secret, cgt)
  end.

(** [ActionHandler.DeleteSecret]: the error it returns and the store. *)
Definition DeleteSecret (st : Store) (parentType : ConfigType) (parentRef secretName : string)
  : option Error * Store :=
  match deleteSecretReadTx st parentType parentRef secretName with
  | Err e => (Some e, st)
  | Ok (secret, cgt) =>
      let '(r, st') := WriteWal st [ActionDelete ConfigTypeSecret (sec_ID secret)] cgt in
      match r with
      | Ok _ => (None, st')
      | Err e => (Some e, st')
      end
  end.

Definition deleteVariableReadTx (st : Store) (parentType : ConfigType) (parentRef variableName : string)
  : result (TVariable * ChangeGroupsUpdateToken) :=
  parentID ← ResolveConfigID st parentType parentRef;
  variable ← GetVariableByName st parentID variableName;
  match variable with
  | None => fail (NewErrBadRequest "variable with name doesn't exist")
  | Some variable =>
      let cgNames := [EncodeSha256Hex ("variableid-" ++ var_ID variable)] in
      cgt ← GetChangeGroupsUpdateTokens st cgNames;
      Ok (variable, cgt)
  end.

(** [ActionHandler.DeleteVariable] *)
Definition DeleteVariable (st : Store) (parentType : ConfigType) (parentRef variableName : string)
  : option Error * Store :=
  match deleteVariableReadTx st parentType parentRef variableName with
  | Err e => (Some e, st)
  | Ok (variable, cgt) =>
      let '(r, st') := WriteWal st [ActionDelete ConfigTypeVariable (var_ID variable)] cgt in
      match r with
      | Ok _ => (None, st')
      | Err e => (Some e, st')
      end
  end.
End Delete.

End ConfigStoreDelete.

(* ===================================================================== *)
(** ** The users list handler of the configstore api                     *)
(* ===================================================================== *)

Module ConfigStoreUsers.
Import Util ListLimit.

(** [url.Values]: each key with its values. *)
Abbreviation Query := (gmap string (list string)).

(** [query.Get(key)]: the first value, the empty string when there is
    none. *)
Definition QueryGet (query : Query) (key : string) : string :=
  match query !! key with
  | Some (v :: _) => v
  | _ => ""
  end.

Section Users.
(** The read database queries ([readDB.GetUserByTokenValue],
    [readDB.GetUserByLinkedAccount],
    [readDB.GetUserByLinkedAccountRemoteUserIDandSource] and
    [readDB.GetUsers]) are not in the sources. *)
Variable User : Type.
Variable GetUserByTokenValue : string -> result (option User).
Variable GetUserByLinkedAccount : string -> result (option User).
Variable GetUserByLinkedAccountRemoteUserIDandSource : string -> string -> result (option User).
Variable GetUsers : string -> Z -> bool -> result (list User).

(** A user looked up by a special query: an error is returned as is, no
    user is a not found error. *)
Definition oneUser (r : result (option User)) (notFoundMsg : string) : result (list User) :=
  match r with
  | Err e => Err e
  | Ok None => Err (NewErrNotFound notFoundMsg)
  | Ok (Some user) => Ok [user]
  end.

(** [UsersHandler.ServeHTTP] of the configstore api: [Err e] is the
    [httpError(w, e)] the handler writes before returning, [Ok users] the
    users it writes with status 200.  As elsewhere the values are left
    out of the error messages. *)
Definition UsersHandler (query : Query) : result (list User) :=
  usersLimit (QueryGet query "limit") ≫= fun limit =>
  let asc := bool_decide (is_Some (query !! "asc")) in
  let start := QueryGet query "start" in
  let queryType := QueryGet query "query_type" in
  if String.eqb queryType "bytoken" then
    oneUser (GetUserByTokenValue (QueryGet query "token"))
            "user with required token doesn't exist"
  else if String.eqb queryType "bylinkedaccount" then
    oneUser (GetUserByLinkedAccount (QueryGet query "linkedaccountid"))
            "user with linked account token doesn't exist"
  else if String.eqb queryType "byremoteuser" then
    oneUser (GetUserByLinkedAccountRemoteUserIDandSource (QueryGet query "remoteuserid")
                                                          (QueryGet query "remotesourceid"))
            "user with remote user for remote source token doesn't exist"
  else GetUsers start limit asc.
End Users.

End ConfigStoreUsers.

(* ===================================================================== *)
(** * Theorems                                                           *)
(* ===================================================================== *)

Module SchedulerProofs.
Import Scheduler SchedulerFixtures.

(** The repository's scheduler tests, on the model. *)
Example getTasksToRun_test_top_level :
  ids (fst (getTasksToRun (testRun RunTaskStatusNotStarted RunTaskStatusNotStarted
      RunTaskStatusNotStarted RunTaskStatusNotStarted false) (testRC false false false false)))
  = ["task03"; "task01"; "task04"].
Proof. reflexivity. Qed.

Example getTasksToRun_test_needs_approval :
  ids (fst (getTasksToRun (testRun RunTaskStatusNotStarted RunTaskStatusNotStarted
      RunTaskStatusNotStarted RunTaskStatusNotStarted false) (testRC false false false true)))
  = ["task03"; "task04"].
Proof. reflexivity. Qed.

Lemma dep_ok_iff (rts : gmap string RunTask) (d : RunConfigTaskDepend) :
  depTerminal rts d && depMatches rts d = true <->
  ∃ prt, rts !! dep_TaskID d = Some prt ∧ isTerminal (rt_Status prt) = true ∧
         ∃ c, In c (depConditions d) ∧ matchesCondition (rt_Status prt) c = true.
Proof.
  unfold depTerminal, depMatches, depStatus.
  destruct (rts !! dep_TaskID d) as [prt|] eqn:E; simpl.
  - rewrite andb_true_iff, existsb_exists. split.
    + intros [H1 H2]. exists prt. auto.
    + intros (prt' & [= <-] & H1 & H2). auto.
  - split; [discriminate | intros (? & ? & _); discriminate].
Qed.

Lemma in_getTasksToRun (r : Run) (rc : RunConfig) (rt : RunTask) :
  In rt (fst (getTasksToRun r rc)) <->
  ∃ id, RunTasks r !! id = Some rt ∧ toRun rc (RunTasks r) id rt = true.
Proof.
  unfold getTasksToRun; simpl. rewrite in_map_iff. split.
  - intros ([id rt'] & <- & Hin). apply filter_In in Hin as [Hin Hf].
    apply list_elem_of_In, elem_of_map_to_list in Hin. eauto.
  - intros (id & Hl & Ht). exists (id, rt). split; [done|].
    apply filter_In. split; [|done].
    apply list_elem_of_In, elem_of_map_to_list. done.
Qed.

(** Every key of the run's task map is the ID of the task stored there. *)
Definition keysAreIDs (r : Run) : Prop :=
  ∀ id rt, RunTasks r !! id = Some rt → rt_ID rt = id.

(** Claim C1. [getTasksToRun] returns exactly the tasks [t] with
    [t.Status = not_started], whose run config task is not skipped, whose
    dependencies are all terminal with a status in their condition set
    (default [{on_success}]) and that are approved when they need an
    approval; in particular an unapproved task needing approval is never
    returned and every returned task is [not_started]. *)
Theorem getTasksToRun_exactly (r : Run) (rc : RunConfig) (Hkeys : keysAreIDs r) :
  (∀ rt, In rt (fst (getTasksToRun r rc)) <->
     RunTasks r !! rt_ID rt = Some rt ∧
     rt_Status rt = RunTaskStatusNotStarted ∧
     ∃ rct, Tasks rc !! rt_ID rt = Some rct ∧
       rct_Skip rct = false ∧
       (∀ d, In d (rct_Depends rct) →
          ∃ prt, RunTasks r !! dep_TaskID d = Some prt ∧
                 isTerminal (rt_Status prt) = true ∧
                 ∃ c, In c (depConditions d) ∧ matchesCondition (rt_Status prt) c = true) ∧
       (rct_NeedsApproval rct = true → rt_Approved rt = true)) ∧
  (∀ rt rct, Tasks rc !! rt_ID rt = Some rct → rct_NeedsApproval rct = true →
     rt_Approved rt = false → ¬ In rt (fst (getTasksToRun r rc))) ∧
  (∀ rt, In rt (fst (getTasksToRun r rc)) → rt_Status rt = RunTaskStatusNotStarted).
Proof.
  assert (Hiff : ∀ rt, In rt (fst (getTasksToRun r rc)) <->
     RunTasks r !! rt_ID rt = Some rt ∧
     rt_Status rt = RunTaskStatusNotStarted ∧
     ∃ rct, Tasks rc !! rt_ID rt = Some rct ∧
       rct_Skip rct = false ∧
       (∀ d, In d (rct_Depends rct) →
          ∃ prt, RunTasks r !! dep_TaskID d = Some prt ∧
                 isTerminal (rt_Status prt) = true ∧
                 ∃ c, In c (depConditions d) ∧ matchesCondition (rt_Status prt) c = true) ∧
       (rct_NeedsApproval rct = true → rt_Approved rt = true)).
  { intros rt. rewrite in_getTasksToRun. split.
    - intros (id & Hl & Ht). pose proof (Hkeys _ _ Hl) as <-.
      unfold toRun, eligible, needsApproval in Ht.
      apply andb_true_iff in Ht as [He Ha]. apply andb_true_iff in He as [Hns He].
      destruct (rt_Status rt) eqn:Hs; try discriminate.
      destruct (Tasks rc !! rt_ID rt) as [rct|] eqn:Hrc; [|discriminate].
      apply andb_true_iff in He as [Hsk Hd]. apply negb_true_iff in Hsk.
      split; [done|]. split; [done|]. exists rct.
      split; [done|]. split; [done|]. split.
      + intros d Hin. apply dep_ok_iff. rewrite forallb_forall in Hd. auto.
      + intros Hn. rewrite Hn in Ha. done.
    - intros (Hl & Hs & rct & Hrc & Hsk & Hd & Ha). exists (rt_ID rt). split; [done|].
      unfold toRun, eligible, needsApproval. rewrite Hs, Hrc, Hsk. simpl.
      apply andb_true_iff. split.
      + apply forallb_forall. intros d Hin. apply dep_ok_iff. auto.
      + destruct (rct_NeedsApproval rct); simpl; auto. }
  split; [exact Hiff|]. split.
  - intros rt rct Hrc Hn Ha Hin. apply Hiff in Hin as (_ & _ & rct' & Hrc' & _ & _ & Ha').
    rewrite Hrc in Hrc'. injection Hrc' as <-. rewrite Ha' in Ha by done. discriminate.
  - intros rt Hin. apply Hiff in Hin. tauto.
Qed.

Lemma getTasksToRun_exactly_witness :
  keysAreIDs (testRun RunTaskStatusNotStarted RunTaskStatusNotStarted
                RunTaskStatusNotStarted RunTaskStatusNotStarted false) ∧
  ¬ In (mkRunTask "task01" RunTaskStatusNotStarted false)
       (fst (getTasksToRun (testRun RunTaskStatusNotStarted RunTaskStatusNotStarted
              RunTaskStatusNotStarted RunTaskStatusNotStarted false)
            (testRC false false false true))).
Proof.
  assert (Hk : keysAreIDs (testRun RunTaskStatusNotStarted RunTaskStatusNotStarted
                RunTaskStatusNotStarted RunTaskStatusNotStarted false)).
  { unfold keysAreIDs. intros id rt H. unfold testRun in H; simpl in H.
    repeat (rewrite lookup_insert in H; case_decide; [subst; injection H as <-; reflexivity|]).
    rewrite lookup_empty in H. discriminate. }
  split; [exact Hk|].
  apply (proj1 (proj2 (getTasksToRun_exactly _ (testRC false false false true) Hk))
           _ (mkTask "task01" [] false true)); reflexivity.
Defined.

(** [advanceRunTasks] on the runs of [TestAdvanceRunTasks]. *)
Example advanceRunTasks_test_parent_skipped :
  rt_Status <$> RunTasks (advanceRunTasks (testRC true false false false) testOrder
     (testRun RunTaskStatusSkipped RunTaskStatusNotStarted RunTaskStatusNotStarted
              RunTaskStatusNotStarted false)) !! "task02" = Some RunTaskStatusSkipped.
Proof. reflexivity. Qed.

Example advanceRunTasks_test_not_all_parents_skipped :
  rt_Status <$> RunTasks (advanceRunTasks (testRC false true false false) testOrder
     (testRun RunTaskStatusNotStarted RunTaskStatusNotStarted RunTaskStatusSkipped
              RunTaskStatusSuccess false)) !! "task05" = Some RunTaskStatusNotStarted.
Proof. reflexivity. Qed.

Lemma advanceTask_other (rc : RunConfig) (rts : gmap string RunTask) (x y : string) :
  x ≠ y → advanceTask rc rts x !! y = rts !! y.
Proof.
  intros Hne. unfold advanceTask.
  destruct (rts !! x) as [rt|]; [|done].
  destruct (isTerminal (rt_Status rt)); [done|].
  destruct (Tasks rc !! x) as [rct|]; [|done].
  case_match; [|done]. by rewrite lookup_insert_ne.
Qed.

Lemma fold_advanceTask_notin (rc : RunConfig) (l : list string)
    (rts : gmap string RunTask) (y : string) :
  y ∉ l → fold_left (advanceTask rc) l rts !! y = rts !! y.
Proof.
  revert rts. induction l as [|x l IH]; intros rts Hy; simpl; [done|].
  rewrite elem_of_cons in Hy.
  rewrite IH by tauto. apply advanceTask_other. intros ->. tauto.
Qed.

(** [order] is a topological order of the run: it lists every task once,
    and the dependencies of a task before the task. *)
Definition topoOrder (rc : RunConfig) (r : Run) (order : list string) : Prop :=
  NoDup order ∧
  (∀ id, is_Some (RunTasks r !! id) → id ∈ order) ∧
  (∀ (pre post : list string) (id : string) (rct : RunConfigTask) (d : RunConfigTaskDepend),
     order = (pre ++ id :: post)%list → Tasks rc !! id = Some rct →
     In d (rct_Depends rct) → dep_TaskID d ∈ pre).

(** The pass decomposes at a task: its dependencies have their final
    status when the task is visited, and the task is visited with its
    initial status and not changed afterwards. *)
Lemma advanceRunTasks_at (rc : RunConfig) (order : list string) (r : Run)
    (id : string) (rct : RunConfigTask) :
  topoOrder rc r order → is_Some (RunTasks r !! id) → Tasks rc !! id = Some rct →
  ∃ S1 : gmap string RunTask,
    S1 !! id = RunTasks r !! id ∧
    RunTasks (advanceRunTasks rc order r) !! id = advanceTask rc S1 id !! id ∧
    (∀ d, In d (rct_Depends rct) →
       RunTasks (advanceRunTasks rc order r) !! dep_TaskID d = S1 !! dep_TaskID d).
Proof.
  intros (Hnd & Hcov & Hdeps) Hid Hrc.
  destruct (list_elem_of_split order id (Hcov id Hid)) as (pre & post & Horder).
  pose proof Hnd as Hnd'. rewrite Horder in Hnd'.
  apply NoDup_app in Hnd' as (Hpre & Hdisj & Hpost).
  apply NoDup_cons in Hpost as [Hnpost _].
  exists (fold_left (advanceTask rc) pre (RunTasks r)).
  unfold advanceRunTasks; simpl. rewrite Horder, fold_left_app; simpl.
  split; [|split].
  - apply fold_advanceTask_notin. intros Hin.
    apply (Hdisj id Hin). apply elem_of_cons. by left.
  - by apply fold_advanceTask_notin.
  - intros d Hd. pose proof (Hdeps pre post id rct d Horder Hrc Hd) as Hin.
    rewrite fold_advanceTask_notin.
    + apply advanceTask_other. intros Heq. apply (Hdisj id); [by rewrite Heq|].
      apply elem_of_cons. by left.
    + intros Hin'. apply (Hdisj _ Hin). apply elem_of_cons. by right.
Qed.

Lemma depStatus_congr (m1 m2 : gmap string RunTask) (d : RunConfigTaskDepend) :
  m1 !! dep_TaskID d = m2 !! dep_TaskID d →
  depStatus m1 d = depStatus m2 d ∧ depTerminal m1 d = depTerminal m2 d ∧
  depMatches m1 d = depMatches m2 d.
Proof. intros H. unfold depTerminal, depMatches, depStatus. by rewrite H. Qed.

Lemma matchesCondition_skipped (c : DependCondition) :
  matchesCondition RunTaskStatusSkipped c = true → c = DependConditionOnSkipped.
Proof. destruct c; simpl; congruence. Qed.

(** Claim C2 (as amended).  After [advanceRunTasks] (visiting the tasks in
    a topological order), a task that was not terminal, has at least one
    dependency, and whose dependencies all end [skipped] with no
    [on_skipped] condition among them is [skipped]; a task that was not
    terminal and has a dependency whose terminal status satisfies that
    dependency's conditions keeps its status. *)
Theorem advanceRunTasks_skip_propagation (rc : RunConfig) (order : list string)
    (r : Run) (id : string) (rt : RunTask) (rct : RunConfigTask)
    (Htopo : topoOrder rc r order) (Hrt : RunTasks r !! id = Some rt)
    (Hnt : isTerminal (rt_Status rt) = false) (Hrc : Tasks rc !! id = Some rct) :
  let r' := advanceRunTasks rc order r in
  (rct_Depends rct ≠ [] →
   (∀ d, In d (rct_Depends rct) →
      depStatus (RunTasks r') d = Some RunTaskStatusSkipped ∧
      ¬ In DependConditionOnSkipped (depConditions d)) →
   rt_Status <$> RunTasks r' !! id = Some RunTaskStatusSkipped) ∧
  ((∃ d, In d (rct_Depends rct) ∧ depTerminal (RunTasks r') d = true ∧
         depMatches (RunTasks r') d = true) →
   RunTasks r' !! id = Some rt).
Proof.
  intros r'.
  destruct (advanceRunTasks_at rc order r id rct Htopo (mk_is_Some _ _ Hrt) Hrc)
    as (S1 & HS1 & Hfin & Hdep).
  rewrite Hrt in HS1. subst r'. rewrite Hfin.
  unfold advanceTask. rewrite HS1, Hnt, Hrc.
  split.
  - intros Hne Hall.
    assert (Hg : negb (bool_decide (rct_Depends rct = []))
                 && forallb (depTerminal S1) (rct_Depends rct)
                 && forallb (fun d => negb (depMatches S1 d)) (rct_Depends rct) = true).
    { rewrite !andb_true_iff. split; [split|].
      - apply negb_true_iff. by apply bool_decide_eq_false.
      - apply forallb_forall. intros d Hd.
        destruct (Hall d Hd) as [Hs _].
        destruct (depStatus_congr _ _ d (Hdep d Hd)) as (Hst & Ht & _).
        rewrite <- Ht. unfold depTerminal. by rewrite Hs.
      - apply forallb_forall. intros d Hd. apply negb_true_iff.
        destruct (Hall d Hd) as [Hs Hno].
        destruct (depStatus_congr _ _ d (Hdep d Hd)) as (_ & _ & Hm).
        rewrite <- Hm. unfold depMatches. rewrite Hs.
        apply not_true_iff_false. rewrite existsb_exists.
        intros (c & Hc & Hmc). apply matchesCondition_skipped in Hmc. subst c. done. }
    rewrite Hg. by rewrite lookup_insert_eq.
  - intros (d & Hd & Ht & Hm).
    destruct (depStatus_congr _ _ d (Hdep d Hd)) as (_ & _ & Hm').
    assert (Hg : forallb (fun d => negb (depMatches S1 d)) (rct_Depends rct) = false).
    { apply not_true_iff_false. rewrite forallb_forall. intros Hall.
      specialize (Hall d Hd). rewrite <- Hm', Hm in Hall. discriminate. }
    rewrite Hg, andb_false_r. done.
Qed.

Lemma advanceRunTasks_skip_propagation_witness :
  rt_Status <$> RunTasks (advanceRunTasks (testRC true false false false) testOrder
     (testRun RunTaskStatusSkipped RunTaskStatusNotStarted RunTaskStatusNotStarted
              RunTaskStatusNotStarted false)) !! "task02" = Some RunTaskStatusSkipped.
Proof.
  assert (Htopo : topoOrder (testRC true false false false)
     (testRun RunTaskStatusSkipped RunTaskStatusNotStarted RunTaskStatusNotStarted
              RunTaskStatusNotStarted false) testOrder).
  { split; [|split].
    - unfold testOrder. repeat constructor; set_solver.
    - intros id [rt Hl]. unfold testRun in Hl; simpl in Hl. unfold testOrder.
      repeat (rewrite lookup_insert in Hl; case_decide; [subst; set_solver|]).
      rewrite lookup_empty in Hl. discriminate.
    - intros pre post id rct d Ho Hrc Hd. unfold testRC in Hrc; simpl in Hrc.
      repeat (rewrite lookup_insert in Hrc; case_decide;
              [subst; injection Hrc as <-; simpl in Hd|]);
        [destruct Hd| | destruct Hd | destruct Hd | | rewrite lookup_empty in Hrc; discriminate].
      + destruct Hd as [<-|[]]. simpl. unfold testOrder in Ho.
        do 2 (destruct pre as [|? pre]; simplify_list_eq); set_solver.
      + destruct Hd as [<-|[<-|[]]]; simpl; unfold testOrder in Ho;
          do 5 (destruct pre as [|? pre]; simplify_list_eq); set_solver. }
  apply (advanceRunTasks_skip_propagation _ _ _ "task02"
           (mkRunTask "task02" RunTaskStatusNotStarted false)
           (mkTask "task02" ["task01"] false false) Htopo); try reflexivity.
  - discriminate.
  - intros d [<-|[]]. split; [reflexivity|]. simpl. intros [H|[]]. discriminate.
Defined.

(** Claim C2 as stated fails: a dependency with an [on_skipped] condition
    that ends [skipped] is satisfied, so its task is not skipped; and a
    task without dependencies (all of whose dependencies are, vacuously,
    skipped) stays [not_started]. *)
Lemma advanceRunTasks_skip_claim_counterexample :
  depStatus (RunTasks (advanceRunTasks onSkippedRC ["task01"; "task02"] onSkippedRun))
    {| dep_TaskID := "task01"; dep_Conditions := [DependConditionOnSkipped] |}
    = Some RunTaskStatusSkipped ∧
  rt_Status <$> RunTasks (advanceRunTasks onSkippedRC ["task01"; "task02"] onSkippedRun)
    !! "task02" = Some RunTaskStatusNotStarted ∧
  rct_Depends (mkTask "task01" [] false false) = [] ∧
  rt_Status <$> RunTasks (advanceRunTasks (testRC false false false false) testOrder
     (testRun RunTaskStatusNotStarted RunTaskStatusNotStarted RunTaskStatusNotStarted
              RunTaskStatusNotStarted false)) !! "task01" = Some RunTaskStatusNotStarted.
Proof. repeat split; reflexivity. Qed.

End SchedulerProofs.

Module CommonProofs.
Import Types Common CommonFixtures.

Example FilterOverridenVariables_test :
  FilterOverridenVariables testVariables =
  [var "var04" "org/org01/projectgroup02/projectgroup03/project02";
   var "var03" "org/org01/projectgroup01/project01";
   var "var02" "org/org01/projectgroup01/project01";
   var "var01" "org/org01/projectgroup01"].
Proof. reflexivity. Qed.

Lemma filterOverriden_sublist (seen : gset string) (vs : list TVariable) :
  filterOverriden seen vs `sublist_of` vs.
Proof.
  revert seen. induction vs as [|v vs IH]; intros seen; simpl; [constructor|].
  case_bool_decide; constructor; apply IH.
Qed.

Lemma filterOverriden_names (seen : gset string) (vs : list TVariable) (n : string) :
  In n (map var_Name (filterOverriden seen vs)) <->
  In n (map var_Name vs) ∧ n ∉ seen.
Proof.
  revert seen. induction vs as [|v vs IH]; intros seen; simpl; [tauto|].
  case_bool_decide as Hv.
  - rewrite IH. split; [tauto|]. intros [[<-|Hin] Hn]; [done|tauto].
  - simpl. rewrite IH. split.
    + intros [<-|[Hin Hn]]; [tauto|]. split; [tauto|set_solver].
    + intros [[<-|Hin] Hn]; [tauto|].
      destruct (decide (n = var_Name v)) as [->|Hne]; [by left|].
      right. split; [done|set_solver].
Qed.

Lemma filterOverriden_nodup (seen : gset string) (vs : list TVariable) :
  NoDup (map var_Name (filterOverriden seen vs)).
Proof.
  revert seen. induction vs as [|v vs IH]; intros seen; simpl; [constructor|].
  case_bool_decide; [apply IH|]. simpl. constructor; [|apply IH].
  rewrite list_elem_of_In, filterOverriden_names. set_solver.
Qed.

Lemma filterOverriden_first (seen : gset string) (vs : list TVariable) (v : TVariable) :
  In v (filterOverriden seen vs) →
  (var_Name v ∉ seen) ∧
  List.find (fun w => String.eqb (var_Name w) (var_Name v)) vs = Some v.
Proof.
  revert seen. induction vs as [|w vs IH]; intros seen Hin; simpl in *; [done|].
  case_bool_decide as Hw.
  - destruct (IH seen Hin) as [Hn Hf]. split; [done|].
    destruct (String.eqb_spec (var_Name w) (var_Name v)) as [Heq|]; [|done].
    rewrite Heq in Hw. done.
  - destruct Hin as [<-|Hin].
    + split; [done|]. by rewrite String.eqb_refl.
    + destruct (IH _ Hin) as [Hn Hf]. split; [set_solver|].
      destruct (String.eqb_spec (var_Name w) (var_Name v)) as [Heq|]; [|done].
      rewrite Heq in Hn. set_solver.
Qed.

Lemma filterOverriden_id (seen : gset string) (vs : list TVariable) :
  NoDup (map var_Name vs) → (∀ v, In v vs → var_Name v ∉ seen) →
  filterOverriden seen vs = vs.
Proof.
  revert seen. induction vs as [|v vs IH]; intros seen Hnd Hs; simpl; [done|].
  simpl in Hnd. apply NoDup_cons in Hnd as [Hv Hnd].
  rewrite bool_decide_false by (apply Hs; by left).
  f_equal. apply IH; [done|].
  intros w Hw. apply not_elem_of_union. split.
  - apply not_elem_of_singleton. intros Heq. apply Hv.
    apply list_elem_of_In, in_map_iff. eauto.
  - apply Hs. by right.
Qed.

(** Claim C4.  [FilterOverridenVariables] returns a subsequence of its
    input that keeps, for each name of the input, exactly one variable:
    the first one with that name; on a list without duplicate names it is
    the identity, and on the empty list it returns the empty list. *)
Theorem FilterOverridenVariables_first_occurrences (variables : list TVariable) :
  let out := FilterOverridenVariables variables in
  (out `sublist_of` variables) ∧
  NoDup (map var_Name out) ∧
  (∀ n, In n (map var_Name variables) <-> In n (map var_Name out)) ∧
  (∀ v, In v out →
     List.find (fun w => String.eqb (var_Name w) (var_Name v)) variables = Some v) ∧
  (NoDup (map var_Name variables) → out = variables) ∧
  FilterOverridenVariables [] = [].
Proof.
  intros out. unfold out, FilterOverridenVariables.
  split; [apply filterOverriden_sublist|].
  split; [apply filterOverriden_nodup|].
  split; [intros n; rewrite filterOverriden_names; set_solver|].
  split; [intros v Hv; by apply (filterOverriden_first ∅)|].
  split; [|done].
  intros Hnd. apply filterOverriden_id; [done|set_solver].
Qed.

Lemma FilterOverridenVariables_first_occurrences_witness :
  FilterOverridenVariables [var "var01" "org/org01/projectgroup01"; var "var02" "org/org01"]
  = [var "var01" "org/org01/projectgroup01"; var "var02" "org/org01"].
Proof.
  apply (FilterOverridenVariables_first_occurrences
           [var "var01" "org/org01/projectgroup01"; var "var02" "org/org01"]).
  simpl. apply NoDup_cons; split; [set_solver|].
  apply NoDup_cons; split; [set_solver|constructor].
Defined.

(** [GetVarValueMatchingSecret] on the cases of [TestGetVarValueMatchingSecret]. *)
Example GetVarValueMatchingSecret_test_tree :
  GetVarValueMatchingSecret secretRef "org/org01/projectgroup01/projectgroup02" testSecrets
  = Some (sec "secret01" "org/org01/projectgroup01/projectgroup02").
Proof. reflexivity. Qed.

Example GetVarValueMatchingSecret_test_child :
  GetVarValueMatchingSecret secretRef "org/org01/projectgroup01/projectgroup02"
    [sec "secret01" "org/org01/projectgroup01/projectgroup02/project01"] = None.
Proof. reflexivity. Qed.

(** [p] is an ancestor of, or equal to, [q]. *)
Definition ancestorOrEqual (p q : string) : Prop :=
  q = p ∨ ∃ rest, q = p ++ "/" ++ rest.

Lemma prefix_spec (a b : string) : String.prefix a b = true <-> ∃ r, b = a ++ r.
Proof.
  revert b. induction a as [|c a IH]; intros b.
  - split; [intros _; by exists b | intros _; by destruct b].
  - destruct b as [|c' b]; simpl.
    + split; [discriminate | intros [r Hr]; discriminate].
    + destruct (Ascii.ascii_dec c c') as [<-|Hne].
      * rewrite IH. split; intros [r Hr]; exists r; [by rewrite Hr | by injection Hr].
      * split; [discriminate | intros [r Hr]; injection Hr; congruence].
Qed.

Lemma string_app_assoc (a b c : string) : (a ++ b) ++ c = a ++ (b ++ c).
Proof.
  induction a as [|x a IH]; [reflexivity|].
  change (String x ((a ++ b) ++ c) = String x (a ++ (b ++ c))). by rewrite IH.
Qed.

Lemma isAncestorOrEqual_spec (p q : string) :
  isAncestorOrEqual p q = true <-> ancestorOrEqual p q.
Proof.
  unfold isAncestorOrEqual, ancestorOrEqual. rewrite orb_true_iff, String.eqb_eq, prefix_spec.
  split; intros [H|[r Hr]]; [by left | right | by left | right]; exists r;
    rewrite Hr; by rewrite string_app_assoc.
Qed.

Lemma string_length_app (a b : string) :
  String.length (a ++ b) = String.length a + String.length b.
Proof. induction a as [|c a IH]; simpl; [done | by rewrite IH]. Qed.

Lemma candidateSecret_spec (varval : VariableValue) (p : string) (s : Secret) :
  candidateSecret varval p s = true <->
  sec_Name s = vv_SecretName varval ∧ ancestorOrEqual (parent_Path (sec_Parent s)) p.
Proof.
  unfold candidateSecret. rewrite andb_true_iff, String.eqb_eq, isAncestorOrEqual_spec.
  done.
Qed.

Lemma matching_fold (varval : VariableValue) (p : string) (secrets : list Secret)
    (best : option Secret) :
  (∀ b, best = Some b → candidateSecret varval p b = true) →
  let step := fun best s =>
    if candidateSecret varval p s then
      match best with
      | None => Some s
      | Some b =>
          if Nat.ltb (pathDepth (parent_Path (sec_Parent b)))
                     (pathDepth (parent_Path (sec_Parent s)))
          then Some s else best
      end
    else best in
  let res := fold_left step secrets best in
  (res = None <-> best = None ∧ ∀ s, In s secrets → candidateSecret varval p s = false) ∧
  (∀ s, res = Some s →
     candidateSecret varval p s = true ∧ (In s secrets ∨ best = Some s) ∧
     (∀ s', In s' secrets → candidateSecret varval p s' = true →
        (pathDepth (parent_Path (sec_Parent s')) ≤ pathDepth (parent_Path (sec_Parent s)))%nat) ∧
     (∀ b, best = Some b →
        (pathDepth (parent_Path (sec_Parent b)) ≤ pathDepth (parent_Path (sec_Parent s)))%nat)).
Proof.
  intros Hinv step res. subst res.
  revert best Hinv. induction secrets as [|x xs IH]; intros best Hinv; simpl.
  - split; [split; [done | intros [-> _]; done]|].
    intros s ->. split; [by apply Hinv|]. split; [by right|]. split; [done|].
    intros b [= ->]. done.
  - assert (Hinv' : ∀ b, step best x = Some b → candidateSecret varval p b = true).
    { intros b Hb. unfold step in Hb.
      destruct (candidateSecret varval p x) eqn:Hx; [|by apply Hinv].
      destruct best as [b0|]; [|by injection Hb as <-].
      destruct (Nat.ltb _ _); [by injection Hb as <- | by apply Hinv]. }
    destruct (IH (step best x) Hinv') as [IHn IHs]. split.
    + rewrite IHn. unfold step. destruct (candidateSecret varval p x) eqn:Hx.
      * split; [intros [Hb _]; destruct best; [destruct (Nat.ltb _ _)|]; discriminate|].
        intros [_ Hall]. rewrite (Hall x) in Hx; [discriminate | by left].
      * split; intros [Hb Hall]; split; try done.
        -- intros s [<-|Hs]; auto.
        -- intros s Hs. apply Hall. by right.
    + intros s Hs. destruct (IHs s Hs) as (Hc & Hin & Hmax & Hbest).
      split; [done|]. split.
      { destruct Hin as [Hin|Hb]; [left; by right|].
        unfold step in Hb. destruct (candidateSecret varval p x); [|by right].
        destruct best as [b0|]; [|left; left; by injection Hb].
        destruct (Nat.ltb _ _); [left; left; by injection Hb | by right]. }
      split.
      { intros s' [<-|Hs'] Hc'; [|by apply Hmax].
        unfold step in Hbest. rewrite Hc' in Hbest.
        destruct best as [b0|]; [|by apply Hbest].
        destruct (Nat.ltb _ _) eqn:Hlt; [by apply Hbest|].
        apply Nat.ltb_ge in Hlt. specialize (Hbest b0 eq_refl). lia. }
      intros b ->. unfold step in Hbest.
      destruct (candidateSecret varval p x); [|by apply Hbest].
      destruct (Nat.ltb _ _) eqn:Hlt; [|by apply Hbest].
      apply Nat.ltb_lt in Hlt. specialize (Hbest x eq_refl). lia.
Qed.

(** Claim C3.  A secret returned by [GetVarValueMatchingSecret] has the
    referenced name, a parent path that is an ancestor of or equal to the
    variable's parent path (so never strictly below it), comes from the
    given secrets and is the deepest such candidate; [None] is returned
    exactly when no secret with that name has an ancestor-or-equal parent
    path.  The theorem holds for every order of the secrets, in particular
    the deepest-parent-first order the configstore returns. *)
Theorem GetVarValueMatchingSecret_scope (varval : VariableValue)
    (varParentPath : string) (secrets : list Secret) :
  (∀ s, GetVarValueMatchingSecret varval varParentPath secrets = Some s →
     sec_Name s = vv_SecretName varval ∧
     ancestorOrEqual (parent_Path (sec_Parent s)) varParentPath ∧
     ¬ (∃ rest, parent_Path (sec_Parent s) = varParentPath ++ "/" ++ rest) ∧
     In s secrets ∧
     (∀ s', In s' secrets → sec_Name s' = vv_SecretName varval →
        ancestorOrEqual (parent_Path (sec_Parent s')) varParentPath →
        (pathDepth (parent_Path (sec_Parent s')) ≤ pathDepth (parent_Path (sec_Parent s)))%nat)) ∧
  (GetVarValueMatchingSecret varval varParentPath secrets = None <->
     ∀ s, In s secrets → sec_Name s = vv_SecretName varval →
       ¬ ancestorOrEqual (parent_Path (sec_Parent s)) varParentPath).
Proof.
  destruct (matching_fold varval varParentPath secrets None ltac:(done)) as [Hn Hs].
  unfold GetVarValueMatchingSecret. split.
  - intros s Hget. destruct (Hs s Hget) as (Hc & Hin & Hmax & _).
    apply candidateSecret_spec in Hc as [Hname Hanc].
    split; [done|]. split; [done|]. split.
    + intros [rest Hrest]. destruct Hanc as [Heq|[r Hr]].
      * rewrite Heq in Hrest. apply (f_equal String.length) in Hrest.
        rewrite !string_length_app in Hrest. simpl in Hrest. lia.
      * rewrite Hrest in Hr. apply (f_equal String.length) in Hr.
        rewrite !string_length_app in Hr. simpl in Hr. lia.
    + split; [destruct Hin as [Hin|Hin]; [done|discriminate]|].
      intros s' Hs' Hn' Ha'. apply Hmax; [done|]. by apply candidateSecret_spec.
  - rewrite Hn. split.
    + intros [_ Hall] s Hin Hname Hanc.
      assert (Hc : candidateSecret varval varParentPath s = true)
        by (by apply candidateSecret_spec).
      rewrite Hall in Hc by done. discriminate.
    + intros Hall. split; [done|]. intros s Hin.
      apply not_true_iff_false. rewrite candidateSecret_spec.
      intros [Hname Hanc]. exact (Hall s Hin Hname Hanc).
Qed.

Lemma GetVarValueMatchingSecret_scope_witness :
  ancestorOrEqual "org/org01/projectgroup01/projectgroup02"
    "org/org01/projectgroup01/projectgroup02" ∧
  ¬ (∃ rest, "org/org01/projectgroup01/projectgroup02" =
             "org/org01/projectgroup01/projectgroup02" ++ "/" ++ rest).
Proof.
  destruct (proj1 (GetVarValueMatchingSecret_scope secretRef
                     "org/org01/projectgroup01/projectgroup02" testSecrets)
              (sec "secret01" "org/org01/projectgroup01/projectgroup02") eq_refl)
    as (_ & Hanc & Hbelow & _).
  exact (conj Hanc Hbelow).
Defined.

End CommonProofs.

Module ConfigStoreProofs.
Import Types Util ConfigStore ConfigStoreFixtures.

Section Rejections.
Variable ValidateName : string -> bool.
Variable EncodeSha256Hex : string -> string.

(** One of the argument checks of [CreateSecret] fails. *)
Definition secretInvalid (secret : Secret) : Prop :=
  sec_Name secret = "" ∨ ValidateName (sec_Name secret) = false ∨
  sec_Type secret ≠ SecretTypeInternal ∨ sec_Data secret = [] ∨
  parent_Type (sec_Parent secret) = ConfigTypeNone ∨ parent_ID (sec_Parent secret) = "" ∨
  isProjectOrGroup (parent_Type (sec_Parent secret)) = false.

(** One of the argument checks of [CreateVariable] fails. *)
Definition variableInvalid (variable : TVariable) : Prop :=
  var_Name variable = "" ∨ ValidateName (var_Name variable) = false ∨
  var_Values variable = [] ∨
  parent_Type (var_Parent variable) = ConfigTypeNone ∨ parent_ID (var_Parent variable) = "" ∨
  isProjectOrGroup (parent_Type (var_Parent variable)) = false.

(** The parent reference resolves to [pid] and a secret with the same
    name is already stored under [pid]. *)
Definition secretDuplicate (st : Store) (secret : Secret) : Prop :=
  ∃ pid s', ResolveConfigID st (parent_Type (sec_Parent secret)) (parent_ID (sec_Parent secret))
              = Ok pid ∧
            In s' (st_secrets st) ∧ parent_ID (sec_Parent s') = pid ∧
            sec_Name s' = sec_Name secret.

Definition variableDuplicate (st : Store) (variable : TVariable) : Prop :=
  ∃ pid v', ResolveConfigID st (parent_Type (var_Parent variable)) (parent_ID (var_Parent variable))
              = Ok pid ∧
            In v' (st_variables st) ∧ parent_ID (var_Parent v') = pid ∧
            var_Name v' = var_Name variable.

End Rejections.

Lemma validateSecret_err VN (secret : Secret) (e : Error) :
  validateSecret VN secret = Err e → IsErrBadRequest e = true.
Proof.
  unfold validateSecret, fail, mbind, result_bind. intros H.
  repeat case_match; simplify_eq/=; done.
Qed.

Lemma validateSecret_ok VN (secret : Secret) (u : unit) :
  validateSecret VN secret = Ok u → ¬ secretInvalid VN secret.
Proof.
  unfold validateSecret, fail, mbind, result_bind, secretInvalid. intros H.
  destruct (String.eqb_spec (sec_Name secret) "") as [Hn|Hn]; [done|].
  destruct (VN (sec_Name secret)) eqn:Hv; [|done]. simpl in H.
  destruct (sec_Type secret) eqn:Ht; try done.
  case_bool_decide as Hd; [done|].
  destruct (parent_Type (sec_Parent secret)) eqn:Hp; try done;
  destruct (String.eqb_spec (parent_ID (sec_Parent secret)) "") as [Hi|Hi]; try done;
  intros [?|[?|[?|[?|[?|[?|?]]]]]]; simplify_eq/=; congruence.
Qed.

Lemma validateVariable_err VN (variable : TVariable) (e : Error) :
  validateVariable VN variable = Err e → IsErrBadRequest e = true.
Proof.
  unfold validateVariable, fail. intros H.
  repeat case_match; simplify_eq/=; done.
Qed.

Lemma validateVariable_ok VN (variable : TVariable) (u : unit) :
  validateVariable VN variable = Ok u → ¬ variableInvalid VN variable.
Proof.
  unfold validateVariable, fail, variableInvalid. intros H.
  destruct (String.eqb_spec (var_Name variable) "") as [Hn|Hn]; [done|].
  destruct (VN (var_Name variable)) eqn:Hv; [|done]. simpl in H.
  case_bool_decide as Hd; [done|].
  destruct (parent_Type (var_Parent variable)) eqn:Hp; try done;
  destruct (String.eqb_spec (parent_ID (var_Parent variable)) "") as [Hi|Hi]; try done;
  intros [?|[?|[?|[?|[?|?]]]]]; simplify_eq/=; congruence.
Qed.

Lemma find_some_of_in {A} (f : A → bool) (l : list A) (x : A) :
  In x l → f x = true → ∃ y, List.find f l = Some y.
Proof.
  intros Hin Hx. destruct (List.find f l) eqn:E; [by eexists|].
  rewrite (List.find_none f l E x Hin) in Hx. discriminate.
Qed.

Lemma createSecretReadTx_duplicate Enc (st : Store) (secret : Secret) :
  secretDuplicate st secret →
  ∃ e, createSecretReadTx Enc st secret = Err e ∧ IsErrBadRequest e = true.
Proof.
  intros (pid & s' & Hres & Hin & Hpid & Hname).
  unfold createSecretReadTx, GetSecretByName, mbind, result_bind. simpl.
  rewrite Hres. simpl.
  destruct (find_some_of_in (λ s, String.eqb (parent_ID (sec_Parent s)) pid
                                   && String.eqb (sec_Name s) (sec_Name secret))
              (st_secrets st) s' Hin) as [y ->].
  { by rewrite Hpid, Hname, !String.eqb_refl. }
  by eexists.
Qed.

Lemma createVariableReadTx_duplicate Enc (st : Store) (variable : TVariable) :
  variableDuplicate st variable →
  ∃ e, createVariableReadTx Enc st variable = Err e ∧ IsErrBadRequest e = true.
Proof.
  intros (pid & v' & Hres & Hin & Hpid & Hname).
  unfold createVariableReadTx, GetVariableByName, mbind, result_bind. simpl.
  rewrite Hres. simpl.
  destruct (find_some_of_in (λ v, String.eqb (parent_ID (var_Parent v)) pid
                                   && String.eqb (var_Name v) (var_Name variable))
              (st_variables st) v' Hin) as [y ->].
  { by rewrite Hpid, Hname, !String.eqb_refl. }
  by eexists.
Qed.

(** Claim C5.  For any name validator and change group encoding: when an
    argument check fails (empty or invalid name, a secret type other than
    internal, empty secret data or variable values, missing, empty or
    invalid parent), or when an entity of the same kind and name is stored
    under the resolved parent id, [CreateSecret] and [CreateVariable]
    return no entity, a bad request error, and the store unchanged: no WAL
    entry is written. *)
Theorem CreateSecret_CreateVariable_bad_request
    (ValidateName : string → bool) (EncodeSha256Hex : string → string)
    (st : Store) (newID : string) :
  (∀ secret, secretInvalid ValidateName secret ∨ secretDuplicate st secret →
     ∃ e, CreateSecret ValidateName EncodeSha256Hex st newID secret = (None, Some e, st) ∧
          IsErrBadRequest e = true) ∧
  (∀ variable, variableInvalid ValidateName variable ∨ variableDuplicate st variable →
     ∃ e, CreateVariable ValidateName EncodeSha256Hex st newID variable = (None, Some e, st) ∧
          IsErrBadRequest e = true).
Proof.
  split.
  - intros secret Hbad. unfold CreateSecret, createSecretPrepare, mbind, result_bind.
    destruct (validateSecret ValidateName secret) as [u|e] eqn:Hv.
    + destruct Hbad as [Hinv|Hdup]; [by apply validateSecret_ok in Hv|].
      destruct (createSecretReadTx_duplicate EncodeSha256Hex st secret Hdup) as (e & -> & He).
      by exists e.
    + exists e. split; [done|]. by apply (validateSecret_err ValidateName secret).
  - intros variable Hbad. unfold CreateVariable, mbind, result_bind.
    destruct (validateVariable ValidateName variable) as [u|e] eqn:Hv.
    + destruct Hbad as [Hinv|Hdup]; [by apply validateVariable_ok in Hv|].
      destruct (createVariableReadTx_duplicate EncodeSha256Hex st variable Hdup)
        as (e & -> & He).
      by exists e.
    + exists e. split; [done|]. by apply (validateVariable_err ValidateName variable).
Qed.

(** The theorem on the store holding [secret01] in [pg1]: creating it
    again is refused, and so is a variable with empty values. *)
Lemma CreateSecret_CreateVariable_bad_request_witness :
  secretDuplicate store1 (newSecret "secret01" "org/o1/pg1") ∧
  (∃ e, CreateSecret validName encodeName store1 "id2" (newSecret "secret01" "org/o1/pg1")
        = (None, Some e, store1) ∧ IsErrBadRequest e = true) ∧
  (∃ e, CreateVariable validName encodeName store1 "id2"
          {| var_ID := ""; var_Name := "var01"; var_Values := [];
             var_Parent := var_Parent (newVariable "var01" "org/o1/pg1") |}
        = (None, Some e, store1) ∧ IsErrBadRequest e = true).
Proof.
  assert (Hdup : secretDuplicate store1 (newSecret "secret01" "org/o1/pg1")).
  { exists "pg1id", (with_secret_id (with_secret_parent_id (newSecret "secret01" "org/o1/pg1")
                                                           "pg1id") "id1").
    split; [reflexivity|]. split; [vm_compute; left; reflexivity|]. split; reflexivity. }
  split; [exact Hdup|]. split.
  - exact (proj1 (CreateSecret_CreateVariable_bad_request validName encodeName store1 "id2")
             (newSecret "secret01" "org/o1/pg1") (or_intror Hdup)).
  - apply (proj2 (CreateSecret_CreateVariable_bad_request validName encodeName store1 "id2")).
    left. right. right. left. reflexivity.
Defined.

End ConfigStoreProofs.

Module HttpProofs.
Import Util Http.

(** Claim C6.  The configstore answers a bad request error with 400 and
    a not found error with 404, each carrying the error message, and any
    other error with 500 and a generic message.  The gateway answers a bad
    request error with 400 and the message, but a not found error, like
    every other error, with 500 and an empty body: the not found kind is
    not surfaced by the gateway. *)
Theorem httpError_status_by_kind (msg : string) :
  configstoreHttpError (Some (NewErrBadRequest msg))
    = Some {| resp_status := 400; resp_body := BodyJSONMessage msg |} ∧
  configstoreHttpError (Some (NewErrNotFound msg))
    = Some {| resp_status := 404; resp_body := BodyJSONMessage msg |} ∧
  gatewayHttpError (Some (NewErrBadRequest msg))
    = Some {| resp_status := 400; resp_body := BodyText (msg ++ newline) |} ∧
  gatewayHttpError (Some (NewErrNotFound msg))
    = Some {| resp_status := 500; resp_body := BodyText newline |} ∧
  (∀ k, k ≠ ErrBadRequest → k ≠ ErrNotFound →
     configstoreHttpError (Some {| err_kind := k; err_msg := msg |})
       = Some {| resp_status := 500; resp_body := BodyJSONMessage "internal server error" |} ∧
     gatewayHttpError (Some {| err_kind := k; err_msg := msg |})
       = Some {| resp_status := 500; resp_body := BodyText newline |}).
Proof.
  split; [reflexivity|]. split; [reflexivity|]. split; [reflexivity|].
  split; [reflexivity|].
  intros k Hb Hn. destruct k; try done; split; reflexivity.
Qed.

End HttpProofs.

Module WebhookProofs.
Import Util Webhook.

(** A merge request hook for a closed merge request, and the push hook
    of a tag deletion (no commits). *)
Definition closedPR : pullRequestHook :=
  {| pr_User := {| user_Name := "user01"; user_Username := "user01" |};
     pr_ObjectAttributes :=
       {| oa_Iid := 7; oa_State := "closed"; oa_Action := "close";
          oa_SourceBranch := "feature"; oa_Title := "title"; oa_URL := "url";
          oa_LastCommit := {| commit_ID := "sha"; commit_Message := "msg";
                              commit_URL := "curl" |} |};
     pr_Project := {| PathWithNamespace := "group/repo"; WebURL := "web" |} |}.

Definition tagDeletion : pushHook :=
  {| push_After := "0000000000000000000000000000000000000000"; push_Ref := "refs/tags/v1";
     push_Commits := []; push_UserName := "user01"; push_UserUsername := "user01";
     push_Project := {| PathWithNamespace := "group/repo"; WebURL := "web" |} |}.

(** Claim C7.  Whatever the decoder, a pull request payload that decodes
    to [prhook] yields webhook data (a pull request event) and no error,
    whatever the state and the action of the merge request. *)
Theorem parsePullRequestHook_not_filtered (payload : Type)
    (parsePullRequest : payload → result pullRequestHook) (p : payload)
    (prhook : pullRequestHook) (Hdecode : parsePullRequest p = Ok prhook) :
  parsePullRequestHook payload parsePullRequest p
    = (Some (webhookDataFromPullRequest prhook), None) ∧
  whd_Event (webhookDataFromPullRequest prhook) = Some WebhookEventPullRequest.
Proof. unfold parsePullRequestHook. by rewrite Hdecode. Qed.

Lemma parsePullRequestHook_not_filtered_witness :
  oa_State (pr_ObjectAttributes closedPR) = "closed" ∧
  parsePullRequestHook (result pullRequestHook) id (Ok closedPR)
    = (Some (webhookDataFromPullRequest closedPR), None).
Proof.
  split; [reflexivity|].
  exact (proj1 (parsePullRequestHook_not_filtered (result pullRequestHook) id
                  (Ok closedPR) closedPR eq_refl)).
Defined.

(** Claim C9.  Whatever the decoder, a push or tag push payload that
    decodes to a hook without commits yields no webhook data and no
    error. *)
Theorem parsePushHook_no_commits (payload : Type)
    (parsePush : payload → result pushHook) (p : payload) (push : pushHook)
    (Hdecode : parsePush p = Ok push) (Hempty : push_Commits push = []) :
  parsePushHook payload parsePush p = (None, None).
Proof. unfold parsePushHook. by rewrite Hdecode, Hempty. Qed.

Lemma parsePushHook_no_commits_witness :
  parsePushHook (result pushHook) id (Ok tagDeletion) = (None, None).
Proof. exact (parsePushHook_no_commits (result pushHook) id (Ok tagDeletion) tagDeletion
                eq_refl eq_refl). Defined.

End WebhookProofs.

Module ListLimitProofs.
Import Util ListLimit.
Local Open Scope Z_scope.

Lemma Atoi_nonempty (s : string) (n : Z) : Atoi s = Some n → String.eqb s "" = false.
Proof. by destruct s. Qed.

(** Claim C10.  For any default and maximum limit (the configstore users
    list uses 10 and 20): a limit that parses to a negative integer is a
    bad request; a missing limit is the default when the default lies
    between 0 and the maximum; a limit above a nonnegative maximum is
    replaced by the maximum, without error. *)
Theorem queryLimit_negative_default_clamp (defaultLimit maxLimit : Z) :
  (∀ limitS n, Atoi limitS = Some n → n < 0 →
     ∃ e, queryLimit defaultLimit maxLimit limitS = Err e ∧ IsErrBadRequest e = true) ∧
  (0 ≤ defaultLimit ≤ maxLimit → queryLimit defaultLimit maxLimit "" = Ok defaultLimit) ∧
  (∀ limitS n, Atoi limitS = Some n → 0 ≤ maxLimit < n →
     queryLimit defaultLimit maxLimit limitS = Ok maxLimit) ∧
  usersLimit "" = Ok DefaultUsersLimit ∧ DefaultUsersLimit = 10 ∧
  (∀ limitS n, Atoi limitS = Some n → MaxUsersLimit < n → usersLimit limitS = Ok MaxUsersLimit) ∧
  MaxUsersLimit = 20.
Proof.
  assert (Hclamp : ∀ d m limitS n, Atoi limitS = Some n → 0 ≤ m < n →
            queryLimit d m limitS = Ok m).
  { intros d m limitS n Ha Hn. unfold queryLimit, mbind, result_bind.
    rewrite (Atoi_nonempty _ _ Ha), Ha.
    destruct (Z.ltb_spec n 0); [lia|]. destruct (Z.ltb_spec m n); [done|lia]. }
  split; [|split; [|split; [|split; [|split; [|split]]]]].
  - intros limitS n Ha Hn. unfold queryLimit, mbind, result_bind.
    rewrite (Atoi_nonempty _ _ Ha), Ha. destruct (Z.ltb_spec n 0); [|lia]. by eexists.
  - intros Hd. unfold queryLimit, mbind, result_bind. simpl.
    destruct (Z.ltb_spec defaultLimit 0); [lia|].
    destruct (Z.ltb_spec maxLimit defaultLimit); [lia|done].
  - intros limitS n Ha Hn. by apply (Hclamp _ _ _ n).
  - reflexivity.
  - reflexivity.
  - intros limitS n Ha Hn. apply (Hclamp _ _ _ n); [done|]. unfold MaxUsersLimit in *. lia.
  - reflexivity.
Qed.

Lemma queryLimit_negative_default_clamp_witness :
  Atoi "-3" = Some (-3) ∧ Atoi "25" = Some 25 ∧
  (∃ e, usersLimit "-3" = Err e ∧ IsErrBadRequest e = true) ∧ usersLimit "25" = Ok 20.
Proof.
  destruct (queryLimit_negative_default_clamp DefaultUsersLimit MaxUsersLimit)
    as (Hneg & _ & Hmax & _ & _ & Hu & _).
  split; [reflexivity|]. split; [reflexivity|]. split.
  - exact (Hneg "-3" (-3) eq_refl ltac:(lia)).
  - exact (Hu "25" 25 eq_refl ltac:(unfold MaxUsersLimit; lia)).
Defined.

End ListLimitProofs.

Module ConfigStoreConcurrencyProofs.
Import Types Util ConfigStore ConfigStoreFixtures.

(** The outcome of a call once it has returned. *)
Definition threadOutcome (th : Thread) : option (option Secret * option Error) :=
  match th with TDone out => Some out | _ => None end.

(** The change group of a secret name. *)
Definition secretNameCG (EncodeSha256Hex : string → string) (name : string) : string :=
  EncodeSha256Hex ("secretname-" ++ name).

Lemma createSecretPrepare_token VN Enc (st : Store) (secret : Secret)
    (cgt : ChangeGroupsUpdateToken) (secret' : Secret) :
  createSecretPrepare VN Enc st secret = Ok (cgt, secret') →
  cgt = {[secretNameCG Enc (sec_Name secret) := cgRevision st (secretNameCG Enc (sec_Name secret))]}.
Proof.
  unfold createSecretPrepare, createSecretReadTx, mbind, result_bind.
  destruct (validateSecret VN secret); [|discriminate]. simpl.
  destruct (ResolveConfigID _ _ _); [|discriminate]. simpl.
  destruct (List.find _ _); [discriminate|]. intros [= <- _].
  unfold secretNameCG. reflexivity.
Qed.

Lemma WriteWal_fresh (st : Store) (actions : list Action) (n : string) :
  ∃ seq st', WriteWal st actions {[n := cgRevision st n]} = (Ok seq, st') ∧
             cgRevision st' n = S (cgRevision st n).
Proof.
  unfold WriteWal, tokenValid. rewrite map_to_list_singleton. simpl.
  rewrite Nat.eqb_refl. simpl. eexists _, _. split; [reflexivity|].
  unfold cgRevision at 1. simpl. by rewrite map_fold_singleton, lookup_insert_eq.
Qed.

Lemma WriteWal_stale (st : Store) (actions : list Action) (n : string) (r : nat) :
  cgRevision st n ≠ r →
  WriteWal st actions {[n := r]}
    = (Err {| err_kind := ErrConflict; err_msg := "update conflict" |}, st).
Proof.
  intros Hne. unfold WriteWal, tokenValid. rewrite map_to_list_singleton. simpl.
  apply Nat.eqb_neq in Hne. by rewrite Hne.
Qed.

(** Run the writes of a schedule: the first write of the captured token
    succeeds and moves the change group; a write with the same token
    afterwards is stale. *)
Ltac run_writes st0 n :=
  repeat match goal with
  | |- context [WriteWal ?s ?acts _] =>
      first
        [ let seq := fresh "seq" in let st' := fresh "st" in
          let Hw := fresh "Hw" in let Hr := fresh "Hr" in
          destruct (WriteWal_fresh s acts n) as (seq & st' & Hw & Hr); rewrite Hw; cbn
        | rewrite (WriteWal_stale s acts n (cgRevision st0 n)) by lia; cbn ]
  end.

(** Claim C8.  Two [CreateSecret] calls for the same secret name whose
    executions overlap (each read transaction runs before the other
    call's [WriteWal]) and which both pass their checks: each captures the
    revision of the change group [EncodeSha256Hex("secretname-" + name)]
    in its read transaction, and once both have returned, one of them
    returned no error and the other a conflict error. *)
Theorem CreateSecret_concurrent_one_conflict
    (ValidateName : string → bool) (EncodeSha256Hex : string → string)
    (st : Store) (idA idB : string) (sA sB : Secret) (sched : list bool)
    (Hname : sec_Name sA = sec_Name sB) (Hsched : In sched overlappingSchedules)
    (pa pb : ChangeGroupsUpdateToken * Secret)
    (HA : createSecretPrepare ValidateName EncodeSha256Hex st sA = Ok pa)
    (HB : createSecretPrepare ValidateName EncodeSha256Hex st sB = Ok pb) :
  fst pa = {[secretNameCG EncodeSha256Hex (sec_Name sA) :=
               cgRevision st (secretNameCG EncodeSha256Hex (sec_Name sA))]} ∧
  fst pb = fst pa ∧
  let '(a, b, _) := runSchedule ValidateName EncodeSha256Hex st
                      (TStart idA sA) (TStart idB sB) sched in
  ∃ oA oB eA eB, threadOutcome a = Some (oA, eA) ∧ threadOutcome b = Some (oB, eB) ∧
    ((eA = None ∧ ∃ e, eB = Some e ∧ err_kind e = ErrConflict) ∨
     (eB = None ∧ ∃ e, eA = Some e ∧ err_kind e = ErrConflict)).
Proof.
  destruct pa as [ca sa'], pb as [cb sb'].
  pose proof (createSecretPrepare_token _ _ _ _ _ _ HA) as Hca.
  pose proof (createSecretPrepare_token _ _ _ _ _ _ HB) as Hcb.
  rewrite <- Hname in Hcb. simpl. split; [done|]. split; [congruence|].
  subst ca cb.
  unfold overlappingSchedules in Hsched; simpl in Hsched.
  destruct Hsched as [<-|[<-|[<-|[<-|[]]]]]; cbn [runSchedule stepThread];
    repeat (first [rewrite HA | rewrite HB]; cbn [runSchedule stepThread]);
    unfold createSecretWrite;
    run_writes st (secretNameCG EncodeSha256Hex (sec_Name sA)); do 4 eexists; (split; [reflexivity|]); (split; [reflexivity|]).
  all: first [left; split; [done | by eexists] | right; split; [done | by eexists]].
Qed.

Lemma CreateSecret_concurrent_one_conflict_witness :
  let '(a, b, _) := runSchedule validName encodeName store0
                      (TStart "idA" (newSecret "secret01" "org/o1/pg1"))
                      (TStart "idB" (newSecret "secret01" "org/o1/pg1"))
                      [true; false; true; false] in
  ∃ oA oB eA eB, threadOutcome a = Some (oA, eA) ∧ threadOutcome b = Some (oB, eB) ∧
    ((eA = None ∧ ∃ e, eB = Some e ∧ err_kind e = ErrConflict) ∨
     (eB = None ∧ ∃ e, eA = Some e ∧ err_kind e = ErrConflict)).
Proof.
  destruct (createSecretPrepare validName encodeName store0 (newSecret "secret01" "org/o1/pg1"))
    as [p|e] eqn:HA; [|discriminate].
  exact (proj2 (proj2 (CreateSecret_concurrent_one_conflict validName encodeName store0 "idA" "idB"
    (newSecret "secret01" "org/o1/pg1") (newSecret "secret01" "org/o1/pg1")
    [true; false; true; false] eq_refl (or_intror (or_intror (or_intror (or_introl eq_refl))))
    p p HA HA))).
Defined.

End ConfigStoreConcurrencyProofs.

Module UrlProofs.
Import Types Util Url ConfigTypeRef.

(** The facts about one byte that the round trip needs, checked on all
    256 bytes. *)
Definition escapeCharOK (c : ascii) : bool :=
  negb (existsb (Ascii.eqb "/") (list_ascii_of_string (escapeChar c))) &&
  if shouldEscape c then
    ishex (upperhex (Ascii.nat_of_ascii c / 16)) &&
    ishex (upperhex (Ascii.nat_of_ascii c mod 16)) &&
    Ascii.eqb (Ascii.ascii_of_nat (unhex (upperhex (Ascii.nat_of_ascii c / 16)) * 16 +
                                   unhex (upperhex (Ascii.nat_of_ascii c mod 16)))) c
  else negb (Ascii.eqb c "%").

Lemma escapeCharOK_all (c : ascii) : escapeCharOK c = true.
Proof. destruct c as [[] [] [] [] [] [] [] []]; vm_compute; reflexivity. Qed.

Lemma unescape_escapeChar (c : ascii) (rest : string) :
  unescapePath (escapeChar c ++ rest) = String c <$> unescapePath rest.
Proof.
  pose proof (escapeCharOK_all c) as H. unfold escapeCharOK in H.
  apply andb_true_iff in H as [_ H]. unfold escapeChar.
  destruct (shouldEscape c).
  - apply andb_true_iff in H as [H H3]. apply andb_true_iff in H as [H1 H2].
    apply Ascii.eqb_eq in H3.
    change (unescapePath (String "%" (String (upperhex (Ascii.nat_of_ascii c / 16))
      (String (upperhex (Ascii.nat_of_ascii c mod 16)) rest))) = String c <$> unescapePath rest).
    cbn [unescapePath]. rewrite Ascii.eqb_refl, H1, H2, H3. reflexivity.
  - apply negb_true_iff in H.
    change (unescapePath (String c rest) = String c <$> unescapePath rest).
    cbn [unescapePath]. by rewrite H.
Qed.

Lemma list_ascii_of_string_app (a b : string) :
  list_ascii_of_string (a ++ b) = (list_ascii_of_string a ++ list_ascii_of_string b)%list.
Proof.
  induction a as [|x a IH]; [reflexivity|].
  change (x :: list_ascii_of_string (a ++ b) = x :: (list_ascii_of_string a ++ list_ascii_of_string b))%list.
  by rewrite IH.
Qed.

(** [url.PathUnescape] undoes [url.PathEscape], and an escaped string has
    no slash: it is a single path segment. *)
Theorem PathEscape_round_trip (s : string) :
  PathUnescape (PathEscape s) = Ok s ∧
  existsb (Ascii.eqb "/") (list_ascii_of_string (PathEscape s)) = false.
Proof.
  split.
  - unfold PathUnescape. enough (unescapePath (PathEscape s) = Some s) as -> by done.
    induction s as [|c s IH]; [done|]. simpl. by rewrite unescape_escapeChar, IH.
  - induction s as [|c s IH]; [done|]. simpl.
    rewrite list_ascii_of_string_app, existsb_app, IH, orb_false_r.
    pose proof (escapeCharOK_all c) as H. unfold escapeCharOK in H.
    apply andb_true_iff in H as [H _]. by apply negb_true_iff in H.
Qed.


(** The [project secret create] command sends its project id escaped;
    [GetConfigTypeRef] on that route variable gives back the project id,
    whatever characters it holds. *)
Theorem projectSecretCreate_ref_round_trip (projectID : string) (Hne : projectID ≠ "") :
  GetConfigTypeRef {[ "projectref" := projectSecretCreateRef projectID ]}
    = Ok (ConfigTypeProject, projectID).
Proof.
  unfold GetConfigTypeRef, muxVar, projectSecretCreateRef.
  rewrite lookup_singleton_eq. simpl. rewrite (proj1 (PathEscape_round_trip projectID)).
  apply String.eqb_neq in Hne. by rewrite Hne.
Qed.

Lemma projectSecretCreate_ref_round_trip_witness :
  GetConfigTypeRef {[ "projectref" := projectSecretCreateRef "org/org01/project 1" ]}
    = Ok (ConfigTypeProject, "org/org01/project 1").
Proof. exact (projectSecretCreate_ref_round_trip "org/org01/project 1" ltac:(discriminate)). Defined.

End UrlProofs.

Module WebhookDispatchProofs.
Import Util Webhook ListLimit WebhookDispatch WebhookFixtures.

Lemma digit_char (n : N) :
  Ascii.nat_of_ascii (Ascii.ascii_of_N (48 + N.modulo n 10)) = (48 + N.to_nat (N.modulo n 10))%nat.
Proof.
  unfold Ascii.nat_of_ascii. rewrite Ascii.N_ascii_embedding.
  - rewrite N2Nat.inj_add. reflexivity.
  - pose proof (N.mod_lt n 10 ltac:(lia)). lia.
Qed.

Lemma parseDigits_digits (f : nat) : ∀ (n : N) (acc : string) (a : Z),
  (n < 10 ^ N.of_nat f)%N →
  ∃ k : nat, parseDigits (digits f n acc) a = parseDigits acc (a * 10 ^ Z.of_nat k + Z.of_N n)%Z.
Proof.
  induction f as [|f IH]; intros n acc a Hn.
  - simpl in Hn. exists O. replace n with 0%N by lia. f_equal. lia.
  - cbn [digits].
    pose proof (N.mod_lt n 10 ltac:(lia)) as Hm. pose proof (N.div_mod n 10 ltac:(lia)) as Hdm.
    assert (Hc : ∀ b, parseDigits (String (Ascii.ascii_of_N (48 + N.modulo n 10)) acc) b =
                 parseDigits acc (b * 10 + Z.of_N (N.modulo n 10))%Z).
    { intros b. cbn [parseDigits]. rewrite digit_char, Nat2Z.inj_add, N_nat_Z.
      remember (N.modulo n 10) as m.
      replace (Z.of_nat 48 + Z.of_N m - 48)%Z with (Z.of_N m) by lia.
      replace ((0 <=? Z.of_N m) && (Z.of_N m <=? 9))%Z with true; [reflexivity|].
      symmetry. apply andb_true_iff. split; apply Z.leb_le; lia. }
    remember (N.modulo n 10) as m. remember (N.div n 10) as q.
    destruct (N.eqb_spec q 0) as [H0|H0].
    + exists 1%nat. rewrite Hc. f_equal. lia.
    + destruct (IH q (String (Ascii.ascii_of_N (48 + m)) acc) a) as [k Hk].
      { rewrite Nat2N.inj_succ, N.pow_succ_r' in Hn. lia. }
      exists (S k). rewrite Hk, Hc. f_equal.
      rewrite Nat2Z.inj_succ, Z.pow_succ_r by lia. lia.
Qed.

(** A decimal digit character. *)
Definition isDigitChar (c : ascii) : Prop := (48 <= Ascii.nat_of_ascii c <= 57)%nat.

Lemma digits_head (f : nat) : ∀ (n : N) (acc : string),
  (f <> O ∨ ∃ d r, acc = String d r ∧ isDigitChar d) →
  ∃ d r, digits f n acc = String d r ∧ isDigitChar d.
Proof.
  induction f as [|f IH]; intros n acc H.
  - destruct H as [H|H]; [done|exact H].
  - cbn [digits]. unfold isDigitChar.
    assert (isDigitChar (Ascii.ascii_of_N (48 + N.modulo n 10))).
    { unfold isDigitChar. rewrite digit_char. pose proof (N.mod_lt n 10 ltac:(lia)). remember (N.modulo n 10) as m. lia. }
    destruct (N.eqb (n / 10) 0); [by eauto|].
    apply IH. right. eauto.
Qed.

(** [strconv.Atoi] reads back [strconv.Itoa] on every 64 bit integer. *)
Lemma Atoi_Itoa (z : Z) :
  (- 2 ^ 63 <= z < 2 ^ 63)%Z → Atoi (Itoa z) = Some z.
Proof.
  intros Hz. unfold Itoa.
  destruct (Z.ltb_spec z 0) as [Hneg|Hpos].
  - destruct (digits_head 20 (Z.to_N (- z)) "") as (d & r & Hd & _); [left; done|].
    destruct (parseDigits_digits 20 (Z.to_N (- z)) "" 0) as [k Hk].
    { apply N2Z.inj_lt. rewrite Z2N.id by lia. rewrite N2Z.inj_pow. simpl. lia. }
    change ("-" ++ digits 20 (Z.to_N (- z)) "")%string with (String "-" (digits 20 (Z.to_N (- z)) "")).
    unfold Atoi. rewrite Hd. rewrite <- Hd, Hk. cbn [parseDigits].
    rewrite Z2N.id by lia. replace (- (0 * 10 ^ Z.of_nat k + - z))%Z with z by lia.
    replace ((- 2 ^ 63 <=? z) && (z <=? 2 ^ 63 - 1))%Z with true; [reflexivity|].
    symmetry. apply andb_true_iff. split; apply Z.leb_le; lia.
  - destruct (digits_head 20 (Z.to_N z) "") as (d & r & Hd & Hdig); [left; done|].
    destruct (parseDigits_digits 20 (Z.to_N z) "" 0) as [k Hk].
    { apply N2Z.inj_lt. rewrite Z2N.id by lia. rewrite N2Z.inj_pow. simpl. lia. }
    unfold Atoi. rewrite Hd.
    assert (Hsign : match String d r with String "-" rest => (true, rest) | String "+" rest => (false, rest) | _ => (false, String d r) end = (false, String d r)).
    { unfold isDigitChar in Hdig. destruct d as [[] [] [] [] [] [] [] []]; vm_compute in Hdig; try lia; reflexivity. }
    rewrite Hsign. rewrite <- Hd, Hk. cbn [parseDigits].
    rewrite Z2N.id by lia. replace (0 * 10 ^ Z.of_nat k + z)%Z with z by lia.
    replace ((- 2 ^ 63 <=? z) && (z <=? 2 ^ 63 - 1))%Z with true; [reflexivity|].
    symmetry. apply andb_true_iff. split; apply Z.leb_le; lia.
Qed.

Lemma substring_all (r : string) : substring 0 (String.length r) r = r.
Proof. induction r as [|c r IH]; [done|]. simpl. by rewrite IH. Qed.

Lemma TrimPrefix_spec (s p : string) :
  String.prefix p s = true → s = (p ++ TrimPrefix s p)%string.
Proof.
  intros Hp. unfold TrimPrefix. rewrite Hp.
  apply CommonProofs.prefix_spec in Hp as [r ->].
  rewrite CommonProofs.string_length_app.
  replace (String.length p + String.length r - String.length p)%nat with (String.length r) by lia.
  induction p as [|c p IH]; [by rewrite substring_all|].
  change (String c (p ++ r) = String c (p ++ substring (String.length p) (String.length r) (p ++ r)))%string.
  by rewrite <- IH.
Qed.

(** The two forms of the data built from a push hook. *)
Definition pushDataShape (d : WebhookData) : Prop :=
  (whd_Event d = Some WebhookEventPush ∧ whd_Ref d = ("refs/heads/" ++ whd_Branch d)%string ∧
   whd_BranchLink d = (whd_RepoWebURL d ++ "/tree/" ++ whd_Branch d)%string ∧ whd_Tag d = "") ∨
  (whd_Event d = Some WebhookEventTag ∧ whd_Ref d = ("refs/tags/" ++ whd_Tag d)%string ∧
   whd_TagLink d = (whd_RepoWebURL d ++ "/tree/" ++ whd_Tag d)%string ∧
   whd_Message d = ("Tag " ++ whd_Tag d)%string ∧ whd_Branch d = "").

Lemma webhookDataFromPush_shape (hook : pushHook) (d : WebhookData) :
  webhookDataFromPush hook = Ok d → pushDataShape d.
Proof.
  unfold webhookDataFromPush, pushDataShape.
  destruct (String.prefix "refs/heads/" (push_Ref hook)) eqn:Hh.
  - intros [= <-]. left. simpl. split_and!; [done| |done|done]. by apply TrimPrefix_spec.
  - destruct (String.prefix "refs/tags/" (push_Ref hook)) eqn:Ht; [|discriminate].
    intros [= <-]. right. simpl. split_and!; [done| |done|done|done]. by apply TrimPrefix_spec.
Qed.

Lemma webhookDataFromPush_err (hook : pushHook) :
  (∃ e, webhookDataFromPush hook = Err e) ↔
  String.prefix "refs/heads/" (push_Ref hook) = false ∧ String.prefix "refs/tags/" (push_Ref hook) = false.
Proof.
  unfold webhookDataFromPush.
  destruct (String.prefix "refs/heads/" (push_Ref hook)), (String.prefix "refs/tags/" (push_Ref hook));
    split; intros H; first [by destruct H as [? ?] | by destruct H as [? ?]; discriminate | eauto | idtac].
Qed.

Section DispatchProofs.
Variable payload : Type.
Variable parsePush : payload -> result pushHook.
Variable parsePullRequest : payload -> result pullRequestHook.
Variable unknownEventError : string -> Error.

Lemma parseWebhook_cases (h : string) (b : payload) :
  (parseWebhook payload parsePush parsePullRequest unknownEventError h b = parsePushHook payload parsePush b ∧ (h = "Push Hook" ∨ h = "Tag Push Hook")) ∨
  (parseWebhook payload parsePush parsePullRequest unknownEventError h b = parsePullRequestHook payload parsePullRequest b ∧ h = "Merge Request Hook") ∨
  (parseWebhook payload parsePush parsePullRequest unknownEventError h b = (None, Some (unknownEventError h)) ∧
   h ≠ "Push Hook" ∧ h ≠ "Tag Push Hook" ∧ h ≠ "Merge Request Hook").
Proof.
  unfold parseWebhook.
  destruct (String.eqb_spec h "Push Hook"); [subst; left; split; [reflexivity|by left]|].
  destruct (String.eqb_spec h "Tag Push Hook"); [subst; left; split; [reflexivity|by right]|].
  destruct (String.eqb_spec h "Merge Request Hook"); [subst; right; left; by split|].
  right; right. by split_and!.
Qed.

(** [parseWebhook] never returns both webhook data and an error, and a
    request whose event header is none of the three gitlab events is
    refused with the unknown event error, its body left undecoded. *)
Theorem parseWebhook_data_xor_error (h : string) (b : payload) :
  (∀ d e, parseWebhook payload parsePush parsePullRequest unknownEventError h b ≠ (Some d, Some e)) ∧
  (h ≠ "Push Hook" → h ≠ "Tag Push Hook" → h ≠ "Merge Request Hook" →
   parseWebhook payload parsePush parsePullRequest unknownEventError h b = (None, Some (unknownEventError h))).
Proof.
  split.
  - intros d e. destruct (parseWebhook_cases h b) as [[-> _]|[[-> _]|[-> _]]];
      unfold parsePushHook, parsePullRequestHook; repeat case_match; congruence.
  - intros. destruct (parseWebhook_cases h b) as [[_ [?|?]]|[[_ ?]|[-> _]]]; done.
Qed.

(** Webhook data returned by [parseWebhook] come from a merge request
    event or from a push event; push data are either a branch push, with
    the ref made of [refs/heads/] and the branch and a link to the branch
    tree, or a tag push, with the ref made of [refs/tags/] and the tag, a
    link to the tag tree and the message [Tag <tag>]. *)
Theorem parseWebhook_data_shape (h : string) (b : payload) (d : WebhookData)
    (Hd : parseWebhook payload parsePush parsePullRequest unknownEventError h b = (Some d, None)) :
  (h = "Merge Request Hook" ∧ whd_Event d = Some WebhookEventPullRequest ∧
   whd_Ref d = ("refs/merge-requests/" ++ whd_PullRequestID d ++ "/head")%string) ∨
  ((h = "Push Hook" ∨ h = "Tag Push Hook") ∧ pushDataShape d).
Proof.
  destruct (parseWebhook_cases h b) as [[Hp Hh]|[[Hp Hh]|[Hp _]]]; rewrite Hp in Hd.
  - right. split; [done|]. unfold parsePushHook in Hd.
    destruct (parsePush b) as [push|]; [|discriminate].
    destruct (push_Commits push); [discriminate|].
    destruct (webhookDataFromPush push) as [d'|] eqn:Hw; [|discriminate].
    injection Hd as <-. by eapply webhookDataFromPush_shape.
  - left. unfold parsePullRequestHook in Hd.
    destruct (parsePullRequest b) as [pr|]; [|discriminate]. by injection Hd as <-.
  - discriminate.
Qed.

(** For a push event with commits, the kind of event follows the ref and
    not the header: a branch ref gives a push event and a tag ref a tag
    event under either push header, and any other ref is an error. *)
Theorem parseWebhook_push_event_by_ref (h : string) (b : payload) (push : pushHook)
    (Hh : h = "Push Hook" ∨ h = "Tag Push Hook")
    (Hdec : parsePush b = Ok push) (Hc : push_Commits push ≠ []) :
  (String.prefix "refs/heads/" (push_Ref push) = true →
     ∃ d, parseWebhook payload parsePush parsePullRequest unknownEventError h b = (Some d, None) ∧ whd_Event d = Some WebhookEventPush ∧ whd_Ref d = push_Ref push) ∧
  (String.prefix "refs/heads/" (push_Ref push) = false →
   String.prefix "refs/tags/" (push_Ref push) = true →
     ∃ d, parseWebhook payload parsePush parsePullRequest unknownEventError h b = (Some d, None) ∧ whd_Event d = Some WebhookEventTag ∧ whd_Ref d = push_Ref push) ∧
  (String.prefix "refs/heads/" (push_Ref push) = false →
   String.prefix "refs/tags/" (push_Ref push) = false →
     ∃ e, parseWebhook payload parsePush parsePullRequest unknownEventError h b = (None, Some e)).
Proof.
  assert (Hp : parseWebhook payload parsePush parsePullRequest unknownEventError h b = parsePushHook payload parsePush b).
  { destruct (parseWebhook_cases h b) as [[? _]|[[_ ->]|[_ (? & ? & _)]]]; [done| |];
      destruct Hh as [->| ->]; done. }
  rewrite Hp. unfold parsePushHook. rewrite Hdec.
  destruct (push_Commits push) eqn:Hcs; [done|].
  unfold webhookDataFromPush.
  split; [|split].
  - intros ->. by eexists.
  - intros -> ->. by eexists.
  - intros -> ->. by eexists.
Qed.

(** The pull request id of merge request data is the decimal form of the
    merge request iid: [strconv.Atoi] reads it back for every 64 bit
    iid. *)
Theorem parseWebhook_pull_request_id (b : payload) (prhook : pullRequestHook)
    (Hdec : parsePullRequest b = Ok prhook)
    (Hiid : (- 2 ^ 63 <= oa_Iid (pr_ObjectAttributes prhook) < 2 ^ 63)%Z) :
  ∃ d, parseWebhook payload parsePush parsePullRequest unknownEventError "Merge Request Hook" b = (Some d, None) ∧
       Atoi (whd_PullRequestID d) = Some (oa_Iid (pr_ObjectAttributes prhook)) ∧
       whd_Ref d = ("refs/merge-requests/" ++ whd_PullRequestID d ++ "/head")%string.
Proof.
  unfold parseWebhook. simpl. unfold parsePullRequestHook. rewrite Hdec.
  eexists. split; [reflexivity|]. simpl. split; [by apply Atoi_Itoa|done].
Qed.
End DispatchProofs.

Lemma parseWebhook_data_shape_witness :
  ∃ d, parseWebhook pushHook Ok (fun _ => Err decodeError) unknownEvent "Tag Push Hook"
         (samplePush "refs/heads/master") = (Some d, None) ∧
  ((("Tag Push Hook" = "Merge Request Hook" ∧ whd_Event d = Some WebhookEventPullRequest ∧
     whd_Ref d = ("refs/merge-requests/" ++ whd_PullRequestID d ++ "/head")%string) ∨
   (("Tag Push Hook" = "Push Hook" ∨ "Tag Push Hook" = "Tag Push Hook") ∧ pushDataShape d))).
Proof.
  eexists. split; [reflexivity|].
  apply (parseWebhook_data_shape pushHook Ok (fun _ => Err decodeError) unknownEvent
           "Tag Push Hook" (samplePush "refs/heads/master")). reflexivity.
Defined.

Lemma parseWebhook_push_event_by_ref_witness :
  ("Tag Push Hook" = "Push Hook" ∨ "Tag Push Hook" = "Tag Push Hook") ∧
  Ok (samplePush "refs/heads/master") = Ok (samplePush "refs/heads/master") ∧
  push_Commits (samplePush "refs/heads/master") ≠ [] ∧
  ∃ d, parseWebhook pushHook Ok (fun _ => Err decodeError) unknownEvent "Tag Push Hook"
         (samplePush "refs/heads/master") = (Some d, None) ∧
       whd_Event d = Some WebhookEventPush ∧ whd_Ref d = "refs/heads/master".
Proof.
  split_and!; [by right|reflexivity|discriminate|].
  apply (parseWebhook_push_event_by_ref pushHook Ok (fun _ => Err decodeError) unknownEvent
           "Tag Push Hook" (samplePush "refs/heads/master") (samplePush "refs/heads/master")
           ltac:(by right) eq_refl ltac:(discriminate)).
  reflexivity.
Defined.

Lemma parseWebhook_pull_request_id_witness :
  (- 2 ^ 63 <= oa_Iid (pr_ObjectAttributes (samplePullRequest (-42))) < 2 ^ 63)%Z ∧
  ∃ d, parseWebhook pullRequestHook (fun _ => Err decodeError) Ok unknownEvent "Merge Request Hook"
         (samplePullRequest (-42)) = (Some d, None) ∧
       Atoi (whd_PullRequestID d) = Some (-42)%Z ∧
       whd_Ref d = ("refs/merge-requests/" ++ whd_PullRequestID d ++ "/head")%string.
Proof.
  split; [simpl; lia|].
  apply (parseWebhook_pull_request_id pullRequestHook (fun _ => Err decodeError) Ok unknownEvent
           (samplePullRequest (-42)) (samplePullRequest (-42)) eq_refl).
  simpl; lia.
Defined.

End WebhookDispatchProofs.

Module GatewayLimitProofs.
Import Util Http ListLimit GatewayLimit.
Local Open Scope Z_scope.

(** A limit accepted by the shared limit handling is never above the
    maximum, and it is nonnegative unless it is a negative maximum; the
    handling fails exactly on a present limit that is not an integer, on a
    negative limit or on a missing limit with a negative default, and
    every failure is a bad request. *)
Theorem queryLimit_range_and_errors (defaultLimit maxLimit : Z) (limitS : string) :
  (∀ l, queryLimit defaultLimit maxLimit limitS = Ok l → l ≤ maxLimit ∧ (0 ≤ l ∨ l = maxLimit)) ∧
  ((∃ e, queryLimit defaultLimit maxLimit limitS = Err e) ↔
     (limitS ≠ "" ∧ Atoi limitS = None) ∨ (limitS = "" ∧ defaultLimit < 0) ∨
     (∃ n, Atoi limitS = Some n ∧ n < 0)) ∧
  (∀ e, queryLimit defaultLimit maxLimit limitS = Err e → IsErrBadRequest e = true).
Proof.
  unfold queryLimit, mbind, result_bind.
  destruct (String.eqb_spec limitS "") as [->|Hne].
  - split; [|split].
    + intros l. destruct (Z.ltb_spec defaultLimit 0); [discriminate|].
      destruct (Z.ltb_spec maxLimit defaultLimit); intros [= <-]; lia.
    + destruct (Z.ltb_spec defaultLimit 0).
      * split; [intros _; by right; left|by eexists].
      * split; [intros [e He]; by destruct (Z.ltb maxLimit defaultLimit)|].
        intros [[[] _]|[[_ ?]|(n & Hn & ?)]]; [done|lia|discriminate].
    + intros e. destruct (Z.ltb defaultLimit 0); [by intros [= <-]|].
      by destruct (Z.ltb maxLimit defaultLimit).
  - destruct (Atoi limitS) as [n|] eqn:Ha.
    + split; [|split].
      * intros l. destruct (Z.ltb_spec n 0); [discriminate|].
        destruct (Z.ltb_spec maxLimit n); intros [= <-]; lia.
      * destruct (Z.ltb_spec n 0).
        -- split; [intros _; right; right; by exists n|by eexists].
        -- split; [intros [e He]; by destruct (Z.ltb maxLimit n)|].
           intros [[_ ?]|[[? _]|(n' & [= <-] & ?)]]; [done|done|lia].
      * intros e. destruct (Z.ltb n 0); [by intros [= <-]|]. by destruct (Z.ltb maxLimit n).
    + split; [intros l; discriminate|]. split; [|by intros e [= <-]].
      split; [intros _; by left|by eexists].
Qed.

(** The gateway [UsersHandler] takes the same limit as the shared limit
    handling of the other list handlers (the gateway [OrgsHandler] among
    them) and rejects the same requests: its own rejections, and the ones
    the gateway's [httpError] writes for the shared handling, are all
    responses with status 400. *)
Theorem gatewayUsersLimit_matches_queryLimit (defaultRunsLimit maxRunsLimit : Z) (limitS : string) :
  (∀ l, gatewayUsersLimit defaultRunsLimit maxRunsLimit limitS = inl l ↔
        queryLimit defaultRunsLimit maxRunsLimit limitS = Ok l) ∧
  (∀ r, gatewayUsersLimit defaultRunsLimit maxRunsLimit limitS = inr r →
        resp_status r = StatusBadRequest) ∧
  (∀ e, queryLimit defaultRunsLimit maxRunsLimit limitS = Err e →
        ∃ r, gatewayHttpError (Some e) = Some r ∧ resp_status r = StatusBadRequest).
Proof.
  unfold gatewayUsersLimit, queryLimit, mbind, result_bind.
  split; [|split].
  - intros l. destruct (String.eqb limitS ""); [|destruct (Atoi limitS)];
      repeat case_match; split; congruence.
  - intros r. destruct (String.eqb limitS ""); [|destruct (Atoi limitS)];
      repeat case_match; intros [= <-]; reflexivity.
  - intros e He. exists (httpErrorText (err_msg e) StatusBadRequest). split; [|reflexivity].
    unfold gatewayHttpError.
    enough (IsErrBadRequest e = true) as -> by reflexivity.
    destruct (String.eqb limitS ""); [|destruct (Atoi limitS)];
      repeat case_match; simplify_eq; reflexivity.
Qed.

End GatewayLimitProofs.

Module ConfigStoreCompositionProofs.
Import Types Util ConfigStore ConfigStoreFixtures ConfigStoreDelete.
Import ConfigStoreProofs ConfigStoreConcurrencyProofs.

Lemma WriteWal_ok_store (st : Store) (actions : list Action) (cgt : ChangeGroupsUpdateToken)
    (seq : nat) (st' : Store) :
  WriteWal st actions cgt = (Ok seq, st') →
  tokenValid st cgt = true ∧ seq = S (st_walSeq st) ∧ st_walSeq st' = S (st_walSeq st) ∧
  st_secrets st' = st_secrets (fold_left applyAction actions st) ∧
  st_variables st' = st_variables (fold_left applyAction actions st) ∧
  st_configIDs st' = st_configIDs (fold_left applyAction actions st).
Proof. unfold WriteWal. destruct (tokenValid st cgt); [|discriminate]. by intros [= <- <-]. Qed.




(** [DeleteSecret] fails with the resolution error, the store unchanged,
    when the parent reference does not resolve; it fails with a bad
    request (not a not found error), the store unchanged, when no secret
    of that name is stored under the resolved parent; otherwise it
    returns no error, writes one WAL entry and moves the change group of
    the id of a stored secret of that name under that parent. *)
Theorem DeleteSecret_outcomes (EncodeSha256Hex : string → string)
    (ConfigTypeSecret : string)
    (st : Store) (parentType : ConfigType) (parentRef secretName : string) :
  (∀ e, ResolveConfigID st parentType parentRef = Err e →
     DeleteSecret EncodeSha256Hex ConfigTypeSecret st parentType parentRef secretName = (Some e, st)) ∧
  (∀ pid, ResolveConfigID st parentType parentRef = Ok pid →
     (∀ s, In s (st_secrets st) → parent_ID (sec_Parent s) = pid → sec_Name s ≠ secretName) →
     ∃ e, DeleteSecret EncodeSha256Hex ConfigTypeSecret st parentType parentRef secretName
            = (Some e, st) ∧ IsErrBadRequest e = true) ∧
  (∀ pid s, ResolveConfigID st parentType parentRef = Ok pid →
     In s (st_secrets st) → parent_ID (sec_Parent s) = pid → sec_Name s = secretName →
     ∃ s' st', DeleteSecret EncodeSha256Hex ConfigTypeSecret st parentType parentRef secretName
                 = (None, st') ∧
       In s' (st_secrets st) ∧ parent_ID (sec_Parent s') = pid ∧ sec_Name s' = secretName ∧
       st_walSeq st' = S (st_walSeq st) ∧
       cgRevision st' (EncodeSha256Hex ("secretid-" ++ sec_ID s')%string)
         = S (cgRevision st (EncodeSha256Hex ("secretid-" ++ sec_ID s')%string))).
Proof.
  unfold DeleteSecret, deleteSecretReadTx, GetSecretByName, GetChangeGroupsUpdateTokens,
    mbind, result_bind.
  split; [|split].
  - by intros e ->.
  - intros pid -> Hnone. simpl.
    destruct (List.find _ _) as [s|] eqn:Hf; [|by eexists].
    apply List.find_some in Hf as [Hin Hm].
    apply andb_true_iff in Hm as [Hp Hn]. apply String.eqb_eq in Hp, Hn.
    by destruct (Hnone s Hin Hp).
  - intros pid s -> Hin Hp Hn. simpl.
    destruct (find_some_of_in (λ s, String.eqb (parent_ID (sec_Parent s)) pid
                                    && String.eqb (sec_Name s) secretName)
                (st_secrets st) s Hin) as [s' Hf].
    { by rewrite Hp, Hn, !String.eqb_refl. }
    rewrite Hf. apply List.find_some in Hf as [Hin' Hm].
    apply andb_true_iff in Hm as [Hp' Hn']. apply String.eqb_eq in Hp', Hn'.
    simpl. rewrite insert_empty.
    destruct (WriteWal_fresh st [ActionDelete ConfigTypeSecret (sec_ID s')]
                (EncodeSha256Hex ("secretid-" ++ sec_ID s')%string)) as (seq & st' & Hw & Hr).
    rewrite Hw. exists s', st'. split_and!; try done.
    apply WriteWal_ok_store in Hw as (_ & _ & Hseq & _). done.
Qed.

(** The same for [DeleteVariable]. *)
Theorem DeleteVariable_outcomes (EncodeSha256Hex : string → string)
    (ConfigTypeVariable : string)
    (st : Store) (parentType : ConfigType) (parentRef variableName : string) :
  (∀ e, ResolveConfigID st parentType parentRef = Err e →
     DeleteVariable EncodeSha256Hex ConfigTypeVariable st parentType parentRef variableName = (Some e, st)) ∧
  (∀ pid, ResolveConfigID st parentType parentRef = Ok pid →
     (∀ s, In s (st_variables st) → parent_ID (var_Parent s) = pid → var_Name s ≠ variableName) →
     ∃ e, DeleteVariable EncodeSha256Hex ConfigTypeVariable st parentType parentRef variableName
            = (Some e, st) ∧ IsErrBadRequest e = true) ∧
  (∀ pid s, ResolveConfigID st parentType parentRef = Ok pid →
     In s (st_variables st) → parent_ID (var_Parent s) = pid → var_Name s = variableName →
     ∃ s' st', DeleteVariable EncodeSha256Hex ConfigTypeVariable st parentType parentRef variableName
                 = (None, st') ∧
       In s' (st_variables st) ∧ parent_ID (var_Parent s') = pid ∧ var_Name s' = variableName ∧
       st_walSeq st' = S (st_walSeq st) ∧
       cgRevision st' (EncodeSha256Hex ("variableid-" ++ var_ID s')%string)
         = S (cgRevision st (EncodeSha256Hex ("variableid-" ++ var_ID s')%string))).
Proof.
  unfold DeleteVariable, deleteVariableReadTx, GetVariableByName, GetChangeGroupsUpdateTokens,
    mbind, result_bind.
  split; [|split].
  - by intros e ->.
  - intros pid -> Hnone. simpl.
    destruct (List.find _ _) as [s|] eqn:Hf; [|by eexists].
    apply List.find_some in Hf as [Hin Hm].
    apply andb_true_iff in Hm as [Hp Hn]. apply String.eqb_eq in Hp, Hn.
    by destruct (Hnone s Hin Hp).
  - intros pid s -> Hin Hp Hn. simpl.
    destruct (find_some_of_in (λ s, String.eqb (parent_ID (var_Parent s)) pid
                                    && String.eqb (var_Name s) variableName)
                (st_variables st) s Hin) as [s' Hf].
    { by rewrite Hp, Hn, !String.eqb_refl. }
    rewrite Hf. apply List.find_some in Hf as [Hin' Hm].
    apply andb_true_iff in Hm as [Hp' Hn']. apply String.eqb_eq in Hp', Hn'.
    simpl. rewrite insert_empty.
    destruct (WriteWal_fresh st [ActionDelete ConfigTypeVariable (var_ID s')]
                (EncodeSha256Hex ("variableid-" ++ var_ID s')%string)) as (seq & st' & Hw & Hr).
    rewrite Hw. exists s', st'. split_and!; try done.
    apply WriteWal_ok_store in Hw as (_ & _ & Hseq & _). done.
Qed.



End ConfigStoreCompositionProofs.

Module ConfigStoreUsersProofs.
Import Util Http ListLimit ConfigStoreUsers.

Lemma usersLimit_range (limitS : string) (limit : Z) :
  usersLimit limitS = Ok limit → (0 ≤ limit ≤ MaxUsersLimit)%Z.
Proof.
  unfold usersLimit, queryLimit, mbind, result_bind, MaxUsersLimit, DefaultUsersLimit.
  destruct (String.eqb limitS ""); [|destruct (Atoi limitS) as [n|]]; [| |discriminate];
    repeat case_match; intros; simplify_eq; lia.
Qed.

Section UsersProofs.
Variable User : Type.
Variable GetUserByTokenValue : string -> result (option User).
Variable GetUserByLinkedAccount : string -> result (option User).
Variable GetUserByLinkedAccountRemoteUserIDandSource : string -> string -> result (option User).
Variable GetUsers : string -> Z -> bool -> result (list User).

Abbreviation handler := (UsersHandler User GetUserByTokenValue GetUserByLinkedAccount
                           GetUserByLinkedAccountRemoteUserIDandSource GetUsers).

(** The handler writes an error with status 404. *)
Definition answered404 (r : result (list User)) : Prop :=
  ∃ e resp, r = Err e ∧ configstoreHttpError (Some e) = Some resp ∧ resp_status resp = StatusNotFound.

Definition specialQueryTypes : list string := ["bytoken"; "bylinkedaccount"; "byremoteuser"].

(** The configstore [UsersHandler] refuses a bad limit whatever the query
    type, also for the lookups that do not use it; a lookup query type
    answers exactly one user, and a lookup that finds no user is answered
    with status 404; the default query asks the read database for at
    most [MaxUsersLimit] (20) users. *)
Theorem UsersHandler_query_types (query : Query) :
  (∀ e, usersLimit (QueryGet query "limit") = Err e → handler query = Err e) ∧
  (QueryGet query "query_type" ∈ specialQueryTypes →
     (∀ users, handler query = Ok users → ∃ user, users = [user]) ∧
     (∀ limit, usersLimit (QueryGet query "limit") = Ok limit →
      (QueryGet query "query_type" = "bytoken" →
         GetUserByTokenValue (QueryGet query "token") = Ok None → answered404 (handler query)) ∧
      (QueryGet query "query_type" = "bylinkedaccount" →
         GetUserByLinkedAccount (QueryGet query "linkedaccountid") = Ok None →
         answered404 (handler query)) ∧
      (QueryGet query "query_type" = "byremoteuser" →
         GetUserByLinkedAccountRemoteUserIDandSource (QueryGet query "remoteuserid")
           (QueryGet query "remotesourceid") = Ok None →
         answered404 (handler query)))) ∧
  (QueryGet query "query_type" ∉ specialQueryTypes →
     ∀ users, handler query = Ok users →
       ∃ limit, (0 ≤ limit ≤ MaxUsersLimit)%Z ∧
         GetUsers (QueryGet query "start") limit (bool_decide (is_Some (query !! "asc"))) = Ok users).
Proof.
  unfold UsersHandler, mbind, result_bind.
  split; [|split].
  - by intros e ->.
  - intros Hq. split.
    + intros users. destruct (usersLimit _) as [limit|]; [|discriminate].
      unfold specialQueryTypes in Hq.
      repeat (rewrite elem_of_cons in Hq); rewrite elem_of_nil in Hq.
      destruct Hq as [->|[->|[->|[]]]]; simpl; unfold oneUser; repeat case_match;
        intros; simplify_eq; eauto.
    + intros limit Hl. rewrite Hl. unfold answered404.
      split_and!; intros -> Hn; simpl; rewrite Hn; simpl; by do 2 eexists.
  - intros Hq users. destruct (usersLimit _) as [limit|] eqn:Hl; [|discriminate].
    destruct (String.eqb_spec (QueryGet query "query_type") "bytoken") as [E|_];
      [by destruct Hq; rewrite E; left|].
    destruct (String.eqb_spec (QueryGet query "query_type") "bylinkedaccount") as [E|_];
      [by destruct Hq; rewrite E; right; left|].
    destruct (String.eqb_spec (QueryGet query "query_type") "byremoteuser") as [E|_];
      [by destruct Hq; rewrite E; right; right; left|].
    intros H. exists limit. split; [by eapply usersLimit_range|done].
Qed.
End UsersProofs.

End ConfigStoreUsersProofs.
